(** * Payment gateway: ledger, refund orchestration, settlement workers
      and webhook delivery, as a shallow embedding of the JavaScript sources.

    The PostgreSQL tables of [schema.sql] are finite maps (tables with a
    primary key that the code looks up by) or lists in insertion order
    (tables the code scans); the three BullMQ queues are lists of job
    payloads.  Every handler and worker is a function from the world before
    to the world after together with what it returns or throws; the refund
    requests are also given one statement at a time, so that requests in
    flight together can be interleaved.  Values that the JavaScript draws
    from outside (uuids, the clock, [Math.random], the merchant's HTTP
    endpoint, whether the queue is reachable) are arguments, and so are the
    conversions of the runtime and of the database between strings and
    numbers.  A string is a sequence of characters with codes 0 to 255. *)

From Stdlib Require Import ZArith QArith Bool Lia.
From stdpp Require Import gmap strings list pretty.

Local Open Scope Z_scope.
Local Open Scope string_scope.
Local Open Scope list_scope.

(** ** Results of code that may throw *)

(** A JavaScript [Error] as the sources build it: [_createError] sets
    [code] and [statusCode]; a plain [new Error(msg)] has neither. *)
Record js_error := JsError {
  e_code : option string;
  e_message : string;
  e_statusCode : option Z
}.

Inductive result (A : Type) : Type :=
| Ok (a : A)
| Throw (e : js_error).
Arguments Ok {A} a.
Arguments Throw {A} e.

Definition plain_error (msg : string) : js_error :=
  JsError None msg None.

(** Truthiness of an optional string, as in [if (idempotencyKey)]:
    [undefined], [null] and the empty string are falsy. *)
Definition truthy (s : option string) : bool :=
  match s with
  | Some k => negb (k =? "")
  | None => false
  end.

(** ** The ledger *)

(** A row of [payments]; the primary key [id] is the key of the map. *)
Record payment := Payment {
  p_merchant_id : option string;
  p_order_id : string;
  p_amount : Z;
  p_status : string;
  p_method : option string;
  p_updated_at : Z
}.

(** A row of [refunds], with the [idempotency_key] column of the
    refactoring's migration ([VARCHAR(255) UNIQUE]). *)
Record refund := Refund {
  r_id : string;
  r_payment_id : string;
  r_merchant_id : option string;
  r_amount : Z;
  r_reason : option string;
  r_status : string;
  r_idempotency_key : option string;
  r_created_at : Z;
  r_processed_at : option Z
}.

(** A row of [merchants], keyed by [id]. *)
Record merchant := Merchant {
  m_api_key : string;
  m_webhook_url : option string;
  m_webhook_secret : option string
}.

(** The body of the event sent to the merchant:
    [{ event, timestamp, data: { payment } }]. *)
Record payload := Payload {
  pl_event : string;
  pl_timestamp : Z;
  pl_payment : option (string * payment)
}.

(** A row of [webhook_logs]. *)
Record webhook_log := WebhookLog {
  wl_id : nat;
  wl_merchant_id : option string;
  wl_event : string;
  wl_payload : payload;
  wl_status : string;
  wl_attempts : Z;
  wl_last_attempt_at : option Z;
  wl_next_retry_at : option Z;
  wl_response_code : option Z;
  wl_response_body : option string
}.

(** JSON values of a request body, as far as the validation tells them
    apart.  Numbers are integers: amounts are in minor currency units, and
    a number that is not an integer never reaches the ledger, the
    [INTEGER] columns refusing it. *)
Inductive js_value :=
| JUndefined
| JNull
| JNumber (n : Z)
| JString (s : string)
| JBoolean (b : bool).

(** A JavaScript number as a comparison sees it. *)
Inductive js_number :=
| NaN
| Infinity (positive : bool)
| Finite (q : Q).

(** JSON bodies the HTTP handlers send.  The refund route of [server.js]
    echoes the amount of the request as it came. *)
Inductive body :=
| PaymentBody (id : string) (order_id : string) (amount : Z) (status : string)
| RefundBody (id payment_id : string) (amount : Z) (status : string)
    (created_at : option Z)
| RouteRefundBody (id payment_id : string) (amount : js_value)
    (status : string)
| ErrorBody (code description : string)
| InternalErrorBody (error : string) (details : option string)
| RetryBody (id : nat) (status message : string)
| PlainErrorBody (error : string).

Record response := Response {
  status_code : Z;
  json : body
}.

(** A row of [idempotency_keys]; the primary key is [(key, merchant_id)]. *)
Record idempotency_row := IdempotencyRow {
  ik_response_body : body;
  ik_created_at : Z;
  ik_expires_at : Z
}.

(** Job payloads of the three queues. *)
Record webhook_job := WebhookJob {
  wj_event : string;
  wj_paymentId : option string;
  wj_refundId : option string;
  wj_merchantId : option string;
  wj_attempt : option Z
}.

(** An outbound request made with [axios.post]. *)
Record http_request := HttpRequest {
  hr_url : string;
  hr_payload : payload;
  hr_signature : string
}.

(** What the merchant's endpoint does with a request: an HTTP status, or
    no response at all (timeout, connection refused). *)
Inductive http_outcome :=
| HttpStatus (status : Z)
| NoResponse.

Record world := World {
  payments : gmap string payment;
  refunds : list refund;
  merchants : gmap string merchant;
  idempotency_keys : gmap (string * string) idempotency_row;
  webhook_logs : list webhook_log;
  payment_queue : list string;
  refund_queue : list string;
  webhook_queue : list (webhook_job * Z);
  http_sent : list http_request
}.

Definition set_payments (f : gmap string payment -> gmap string payment)
    (w : world) : world :=
  World (f (payments w)) (refunds w) (merchants w) (idempotency_keys w)
    (webhook_logs w) (payment_queue w) (refund_queue w) (webhook_queue w)
    (http_sent w).

Definition set_refunds (f : list refund -> list refund) (w : world) : world :=
  World (payments w) (f (refunds w)) (merchants w) (idempotency_keys w)
    (webhook_logs w) (payment_queue w) (refund_queue w) (webhook_queue w)
    (http_sent w).

Definition set_idempotency_keys
    (f : gmap (string * string) idempotency_row ->
         gmap (string * string) idempotency_row) (w : world) : world :=
  World (payments w) (refunds w) (merchants w) (f (idempotency_keys w))
    (webhook_logs w) (payment_queue w) (refund_queue w) (webhook_queue w)
    (http_sent w).

Definition set_webhook_logs (f : list webhook_log -> list webhook_log)
    (w : world) : world :=
  World (payments w) (refunds w) (merchants w) (idempotency_keys w)
    (f (webhook_logs w)) (payment_queue w) (refund_queue w) (webhook_queue w)
    (http_sent w).

Definition set_payment_queue (f : list string -> list string)
    (w : world) : world :=
  World (payments w) (refunds w) (merchants w) (idempotency_keys w)
    (webhook_logs w) (f (payment_queue w)) (refund_queue w) (webhook_queue w)
    (http_sent w).

Definition set_refund_queue (f : list string -> list string)
    (w : world) : world :=
  World (payments w) (refunds w) (merchants w) (idempotency_keys w)
    (webhook_logs w) (payment_queue w) (f (refund_queue w)) (webhook_queue w)
    (http_sent w).

Definition set_webhook_queue
    (f : list (webhook_job * Z) -> list (webhook_job * Z))
    (w : world) : world :=
  World (payments w) (refunds w) (merchants w) (idempotency_keys w)
    (webhook_logs w) (payment_queue w) (refund_queue w) (f (webhook_queue w))
    (http_sent w).

Definition set_http_sent (f : list http_request -> list http_request)
    (w : world) : world :=
  World (payments w) (refunds w) (merchants w) (idempotency_keys w)
    (webhook_logs w) (payment_queue w) (refund_queue w) (webhook_queue w)
    (f (http_sent w)).

(** ** Column types of [schema.sql] *)

Module Schema.

(** [INTEGER]: a value outside the 32-bit range is refused. *)
Definition integer (n : Z) : bool :=
  (-2147483648 <=? n)%Z && (n <=? 2147483647)%Z.

(** [VARCHAR(n)]: a longer string is refused (one character of the
    column for each character of the string). *)
Definition varchar (n : nat) (s : string) : bool :=
  (String.length s <=? n)%nat.

Definition varchar_null (n : nat) (s : option string) : bool :=
  match s with
  | Some s' => varchar n s'
  | None => true
  end.

End Schema.

(** ** RefundRepository *)

Module RefundRepository.

(** [SELECT * FROM payments WHERE id = $1], first row or [null]. *)
Definition getPaymentById (w : world) (paymentId : string) : option payment :=
  payments w !! paymentId.

(** [status IN ('processed', 'pending')]. *)
Definition counts_against_limit (r : refund) : bool :=
  (r_status r =? "processed") || (r_status r =? "pending").

Definition refund_of (paymentId : string) (r : refund) : bool :=
  (r_payment_id r =? paymentId) && counts_against_limit r.

(** [SUM(amount)] over the rows selected. *)
Fixpoint sum_amounts (paymentId : string) (rs : list refund) : Z :=
  match rs with
  | [] => 0
  | r :: rs' =>
      (if refund_of paymentId r then r_amount r else 0)
      + sum_amounts paymentId rs'
  end.

(** [parseInt(result.rows[0].total || 0, 10)]: the sum, 0 when no row
    is selected. *)
Definition getTotalRefundedAmount (w : world) (paymentId : string) : Z :=
  sum_amounts paymentId (refunds w).

Definition has_key (k : string) (r : refund) : bool :=
  match r_idempotency_key r with
  | Some k' => k' =? k
  | None => false
  end.

(** [... WHERE idempotency_key = $1 LIMIT 1], first row or [null]. *)
Definition findRefundByIdempotencyKey (w : world) (idempotencyKey : string)
    : option refund :=
  List.find (has_key idempotencyKey) (refunds w).

Definition has_id (id : string) (r : refund) : bool := r_id r =? id.

(** [SELECT * FROM refunds WHERE id = $1]. *)
Definition getRefundById (w : world) (refundId : string) : option refund :=
  List.find (has_id refundId) (refunds w).

(** The constraints an [INSERT INTO refunds] can violate: the column
    types, the primary key and the unique idempotency key (SQL [NULL]s
    never collide). *)
Definition insert_conflict (w : world) (id : string) (amount : Z)
    (idempotencyKey : option string) : bool :=
  negb (Schema.varchar 64 id)
  || negb (Schema.integer amount)
  || negb (Schema.varchar_null 255 idempotencyKey)
  || existsb (has_id id) (refunds w)
  || match idempotencyKey with
     | Some k => existsb (has_key k) (refunds w)
     | None => false
     end.

(** [INSERT INTO refunds ... RETURNING ...]; a constraint violation
    (those of [insert_conflict], a status too long for its column, a
    payment id that is not in [payments]) is rethrown as a plain
    [Error]. *)
Definition createRefund (w : world) (id paymentId : string)
    (merchantId : option string) (amount : Z) (reason : option string)
    (status : string) (idempotencyKey : option string) (now : Z)
    : world * result refund :=
  if insert_conflict w id amount idempotencyKey
     || negb (Schema.varchar 20 status)
     || negb (bool_decide (is_Some (payments w !! paymentId))) then
    (w, Throw (plain_error
                 "Failed to create refund: the insert violates a constraint"))
  else
    let row := Refund id paymentId merchantId amount reason status
                 idempotencyKey now None in
    (set_refunds (fun rs => rs ++ [row]) w, Ok row).

(** [UPDATE refunds SET status = $1 ... WHERE id = $2]. *)
Definition set_status (status : string) (r : refund) : refund :=
  Refund (r_id r) (r_payment_id r) (r_merchant_id r) (r_amount r)
    (r_reason r) status (r_idempotency_key r) (r_created_at r)
    (r_processed_at r).

(** [updateRefundStatus]: the row returned by [RETURNING *], [undefined]
    when no row has the id; a status that does not fit [VARCHAR(20)] is
    refused by the database and the error rethrown as a plain [Error]. *)
Definition updateRefundStatus (w : world) (refundId status : string)
    : world * result (option refund) :=
  if negb (Schema.varchar 20 status) then
    (w, Throw (plain_error
                 "Failed to update refund status: value too long for type character varying(20)"))
  else
    let w' := set_refunds
                (map (fun r => if has_id refundId r then set_status status r
                               else r)) w in
    (w', Ok (getRefundById w' refundId)).

End RefundRepository.

(** ** RefundService *)

Module RefundService.
Import RefundRepository.

Definition _createError (code description : string) (statusCode : Z)
    : js_error :=
  JsError (Some code) description (Some statusCode).

(** Step 1 of [processRefund]: the refund already stored under the key,
    looked up only when the key is truthy. *)
Definition existingRefund (w : world) (idempotencyKey : option string)
    : option refund :=
  match idempotencyKey with
  | Some k => if truthy idempotencyKey then findRefundByIdempotencyKey w k
              else None
  | None => None
  end.

(** [processRefund(paymentId, requestedAmount, reason, idempotencyKey)]
    run from its first statement to its last with nothing in between.
    [refundId] is what [_generateRefundId] returns when it is reached,
    [now] is the database's [NOW()], and [queue_down] tells whether
    [refundQueue.add] throws; the statements are not in a transaction, so
    an error of the queue leaves the row that was inserted. *)
Definition processRefund (w : world) (paymentId : string)
    (requestedAmount : Z) (reason : string) (idempotencyKey : option string)
    (refundId : string) (now : Z) (queue_down : bool)
    : world * result refund :=
  match existingRefund w idempotencyKey with
  | Some r => (w, Ok r)
  | None =>
    match getPaymentById w paymentId with
    | None =>
        (w, Throw (_createError "PAYMENT_NOT_FOUND" "Payment not found" 404))
    | Some payment =>
      if negb (p_status payment =? "success") then
        (w, Throw (_createError "BAD_REQUEST_ERROR"
                     "Payment not in refundable state" 400))
      else
        let totalRefunded := getTotalRefundedAmount w paymentId in
        if (requestedAmount + totalRefunded >? p_amount payment)%Z then
          (w, Throw (_createError "REFUND_AMOUNT_EXCEEDS_LIMIT"
                       "Refund amount exceeds available amount" 400))
        else if (requestedAmount <=? 0)%Z then
          (w, Throw (_createError "INVALID_REFUND_AMOUNT"
                       "Refund amount must be greater than 0" 400))
        else
          match createRefund w refundId paymentId (p_merchant_id payment)
                  requestedAmount (Some reason) "pending" idempotencyKey
                  now with
          | (w', Throw e) => (w', Throw e)
          | (w', Ok refund) =>
              if queue_down then (w', Throw (plain_error "enqueue failed"))
              else (set_refund_queue (fun q => q ++ [refundId]) w', Ok refund)
          end
    end
  end.

(** *** One statement at a time

    Each [await] of [processRefund] is a separate statement against the
    database or the queue; between two of them other requests may run.  A
    call in flight is the arguments it was made with, the values it draws
    from outside, and where it stands. *)

Record call := Call {
  c_paymentId : string;
  c_requestedAmount : Z;
  c_reason : string;
  c_idempotencyKey : option string;
  c_refundId : string;
  c_now : Z;
  c_queue_down : bool
}.

(** The statement a call is about to issue, with the local variables it
    holds, or what it has returned or thrown. *)
Inductive progress :=
| Lookup
| FetchPayment
| SumRefunds (payment : payment)
| InsertRefund (payment : payment)
| Enqueue (refund : refund)
| Returned (outcome : result refund).

(** One statement of the call, and the synchronous code up to the next
    [await].  (For a falsy key [Lookup] issues no statement.) *)
Definition advance (c : call) (w : world) (at_ : progress)
    : world * progress :=
  match at_ with
  | Lookup =>
      match existingRefund w (c_idempotencyKey c) with
      | Some r => (w, Returned (Ok r))
      | None => (w, FetchPayment)
      end
  | FetchPayment =>
      match getPaymentById w (c_paymentId c) with
      | None =>
          (w, Returned (Throw (_createError "PAYMENT_NOT_FOUND"
                                 "Payment not found" 404)))
      | Some payment =>
          if negb (p_status payment =? "success") then
            (w, Returned (Throw (_createError "BAD_REQUEST_ERROR"
                                   "Payment not in refundable state" 400)))
          else (w, SumRefunds payment)
      end
  | SumRefunds payment =>
      let totalRefunded := getTotalRefundedAmount w (c_paymentId c) in
      if (c_requestedAmount c + totalRefunded >? p_amount payment)%Z then
        (w, Returned (Throw (_createError "REFUND_AMOUNT_EXCEEDS_LIMIT"
                               "Refund amount exceeds available amount" 400)))
      else if (c_requestedAmount c <=? 0)%Z then
        (w, Returned (Throw (_createError "INVALID_REFUND_AMOUNT"
                               "Refund amount must be greater than 0" 400)))
      else (w, InsertRefund payment)
  | InsertRefund payment =>
      match createRefund w (c_refundId c) (c_paymentId c)
              (p_merchant_id payment) (c_requestedAmount c)
              (Some (c_reason c)) "pending" (c_idempotencyKey c) (c_now c)
      with
      | (w', Throw e) => (w', Returned (Throw e))
      | (w', Ok refund) => (w', Enqueue refund)
      end
  | Enqueue refund =>
      if c_queue_down c then
        (w, Returned (Throw (plain_error "enqueue failed")))
      else
        (set_refund_queue (fun q => q ++ [c_refundId c]) w,
         Returned (Ok refund))
  | Returned outcome => (w, Returned outcome)
  end.

End RefundService.

(** ** RefundController *)

Module RefundController.

Definition _createValidationError (code description : string) : js_error :=
  JsError (Some code) description (Some 400).

(** White space that [String.prototype.trim] removes, among the
    characters a string holds here (codes 0 to 255): tab to carriage
    return, the space and the no-break space. *)
Definition is_space (c : Ascii.ascii) : bool :=
  let n := Ascii.nat_of_ascii c in
  ((9 <=? n)%nat && (n <=? 13)%nat) || (n =? 32)%nat || (n =? 160)%nat.

Fixpoint all_space (s : string) : bool :=
  match s with
  | EmptyString => true
  | String c s' => is_space c && all_space s'
  end.

(** [_validateRefundInput]: returns the validated amount and reason, or
    throws. *)
Definition _validateRefundInput (paymentId : string)
    (requestedAmount reason : js_value) : result (Z * string) :=
  if paymentId =? "" then
    Throw (_createValidationError "INVALID_PAYMENT_ID" "Invalid payment ID format")
  else
    match requestedAmount with
    | JUndefined | JNull =>
        Throw (_createValidationError "MISSING_AMOUNT" "Refund amount is required")
    | JNumber n =>
        if (n <=? 0)%Z then
          Throw (_createValidationError "INVALID_AMOUNT"
                   "Refund amount must be a positive number")
        else
          match reason with
          | JString s =>
              if all_space s then
                Throw (_createValidationError "MISSING_REASON"
                         "Refund reason is required")
              else Ok (n, s)
          | _ => Throw (_createValidationError "MISSING_REASON"
                          "Refund reason is required")
          end
    | _ => Throw (_createValidationError "INVALID_AMOUNT"
                    "Refund amount must be a positive number")
    end.

(** [_handleError]: falsy fields fall back to the defaults. *)
Definition _handleError (error : js_error) : response :=
  let statusCode :=
    match e_statusCode error with
    | Some c => if (c =? 0)%Z then 500 else c
    | None => 500
    end in
  let code :=
    match e_code error with
    | Some c => if c =? "" then "INTERNAL_SERVER_ERROR" else c
    | None => "INTERNAL_SERVER_ERROR"
    end in
  let description :=
    if e_message error =? "" then "An unexpected error occurred"
    else e_message error in
  Response statusCode (ErrorBody code description).

(** What [createRefund] answers once the service has returned or
    thrown. *)
Definition respond (outcome : result refund) : response :=
  match outcome with
  | Ok refund =>
      Response 201
        (RefundBody (r_id refund) (r_payment_id refund) (r_amount refund)
           (r_status refund) (Some (r_created_at refund)))
  | Throw e => _handleError e
  end.

(** [createRefund(req, res)] for
    [POST /api/v1/payments/:payment_id/refunds]. *)
Definition createRefund (w : world) (paymentId : string)
    (requestedAmount reason : js_value) (idempotencyKey : option string)
    (refundId : string) (now : Z) (queue_down : bool) : world * response :=
  match _validateRefundInput paymentId requestedAmount reason with
  | Throw e => (w, _handleError e)
  | Ok (amount, reason') =>
      match RefundService.processRefund w paymentId amount reason'
              idempotencyKey refundId now queue_down with
      | (w', Ok refund) =>
          (w', Response 201
                 (RefundBody (r_id refund) (r_payment_id refund)
                    (r_amount refund) (r_status refund)
                    (Some (r_created_at refund))))
      | (w', Throw e) => (w', _handleError e)
      end
  end.

End RefundController.

(** ** The API server (payments, refunds, manual webhook retry) *)

Module Server.

(** Step A of [POST /api/v1/payments]: the row of [idempotency_keys]
    selected by key and merchant, looked up only when the header is
    truthy. *)
Definition cached (w : world) (merchantId : string)
    (idempotencyKey : option string) : option idempotency_row :=
  match idempotencyKey with
  | Some k => if truthy idempotencyKey
              then idempotency_keys w !! (k, merchantId) else None
  | None => None
  end.

(** The row an [INSERT INTO payments] stores, when no constraint refuses
    it: [order_id] and [amount] are [NOT NULL], the columns have their
    types and [id] is the primary key. *)
Definition payment_row (w : world) (merchantId : string)
    (order_id : option string) (amount : option Z) (method : option string)
    (paymentId : string) (now : Z) : option payment :=
  match order_id, amount, payments w !! paymentId with
  | Some order_id', Some amount', None =>
      if Schema.varchar 64 paymentId && Schema.varchar 255 order_id'
         && Schema.integer amount' && Schema.varchar_null 50 method
      then Some (Payment (Some merchantId) order_id' amount' "pending"
                   method now)
      else None
  | _, _, _ => None
  end.

(** [POST /api/v1/payments].  [merchantId] is [req.merchantId] as set by
    the authentication middleware (the id of a row of [merchants]),
    [paymentId] the generated id.  The statements are not in a
    transaction: an error after the payment [INSERT] leaves the row. *)
Definition post_payments (w : world) (merchantId : string)
    (order_id : option string) (amount : option Z) (method : option string)
    (idempotencyKey : option string) (paymentId : string) (now : Z)
    : world * response :=
  match cached w merchantId idempotencyKey with
  | Some row => (w, Response 200 (ik_response_body row))
  | None =>
    match payment_row w merchantId order_id amount method paymentId now with
    | None =>
        (w, Response 500
              (InternalErrorBody "Internal server error"
                 (Some "insert into payments violates a constraint")))
    | Some row =>
        let w1 := set_payments (insert paymentId row) w in
        let responseData :=
          PaymentBody paymentId (p_order_id row) (p_amount row) "pending" in
        let enqueue_and_respond (w2 : world) :=
          (set_payment_queue (fun q => q ++ [paymentId]) w2,
           Response 201 responseData) in
        match idempotencyKey with
        | Some k =>
            if truthy idempotencyKey then
              if Schema.varchar 255 k then
                enqueue_and_respond
                  (set_idempotency_keys
                     (insert (k, merchantId)
                        (IdempotencyRow responseData now
                           (now + 24 * 60 * 60 * 1000))) w1)
              else
                (w1, Response 500
                       (InternalErrorBody "Internal server error"
                          (Some "value too long for type character varying(255)")))
            else enqueue_and_respond w1
        | None => enqueue_and_respond w1
        end
    end
  end.

Section RefundRoute.

(** What JavaScript makes of a string where a number is needed
    ([Number(s)]). *)
Variable to_number : string -> js_number.

(** What the database makes of a text parameter for an [INTEGER] column;
    [None] when it refuses the text. *)
Variable integer_in : string -> option Z.

(** [x > limit] for a number [x]. *)
Definition exceeds (x : js_number) (limit : Z) : bool :=
  match x with
  | NaN => false
  | Infinity positive => positive
  | Finite q => negb (Qle_bool q (inject_Z limit))
  end.

(** [requestedAmount + totalRefunded > payment.amount].  The handler
    checks no type: a number is added to the total, [null] counts as 0 and
    a boolean as 0 or 1, [undefined] gives [NaN], and a string is
    concatenated with the digits of the total and the result read as a
    number. *)
Definition limit_exceeded (requestedAmount : js_value)
    (totalRefunded limit : Z) : bool :=
  match requestedAmount with
  | JUndefined => false
  | JNull => (totalRefunded >? limit)%Z
  | JNumber n => (n + totalRefunded >? limit)%Z
  | JString s => exceeds (to_number (s +:+ pretty totalRefunded)) limit
  | JBoolean b => ((if b then 1 else 0) + totalRefunded >? limit)%Z
  end.

(** The amount the [INSERT] gets as its parameter: [undefined] and [null]
    are sent as [NULL], which the column refuses, a string and a boolean
    as text. *)
Definition amount_parameter (requestedAmount : js_value) : option Z :=
  match requestedAmount with
  | JUndefined | JNull => None
  | JNumber n => Some n
  | JString s => integer_in s
  | JBoolean b => integer_in (if b then "true" else "false")
  end.

(** [POST /api/v1/payments/:payment_id/refunds] of [server.js], run from
    its first statement to its last with nothing in between.  The handler
    does not read [req.merchantId]; [queue_down] tells whether
    [refundQueue.add] throws, which leaves the row that was inserted. *)
Definition post_refunds (w : world) (merchantId : string)
    (payment_id : string) (requestedAmount : js_value)
    (reason : option string) (refundId : string) (now : Z)
    (queue_down : bool) : world * response :=
  let refuse :=
    (w, Response 400
          (ErrorBody "BAD_REQUEST_ERROR"
             "Only successful payments can be refunded")) in
  match payments w !! payment_id with
  | None => refuse
  | Some payment =>
    if negb (p_status payment =? "success") then refuse
    else
      let totalRefunded :=
        RefundRepository.getTotalRefundedAmount w payment_id in
      if limit_exceeded requestedAmount totalRefunded (p_amount payment) then
        (w, Response 400
              (ErrorBody "BAD_REQUEST_ERROR"
                 "Refund amount exceeds available balance"))
      else
        match amount_parameter requestedAmount with
        | None => (w, Response 500 (PlainErrorBody "Refund processing failed"))
        | Some amount =>
          if RefundRepository.insert_conflict w refundId amount None then
            (w, Response 500 (PlainErrorBody "Refund processing failed"))
          else
            let row := Refund refundId payment_id (p_merchant_id payment)
                         amount reason "pending" None now None in
            let w1 := set_refunds (fun rs => rs ++ [row]) w in
            if queue_down then
              (w1, Response 500 (PlainErrorBody "Refund processing failed"))
            else
              (set_refund_queue (fun q => q ++ [refundId]) w1,
               Response 201
                 (RouteRefundBody refundId payment_id requestedAmount
                    "pending"))
        end
  end.

(** *** One statement at a time *)

Record refund_request := RefundRequest {
  rr_merchantId : string;
  rr_payment_id : string;
  rr_requestedAmount : js_value;
  rr_reason : option string;
  rr_refundId : string;
  rr_now : Z;
  rr_queue_down : bool
}.

(** The statement the handler is about to issue, or its answer. *)
Inductive route_progress :=
| ReadPayment
| ReadTotal (payment : payment)
| InsertRow (payment : payment)
| AddJob
| Responded (r : response).

Definition advance_refund (c : refund_request) (w : world)
    (at_ : route_progress) : world * route_progress :=
  match at_ with
  | ReadPayment =>
      match payments w !! rr_payment_id c with
      | None =>
          (w, Responded (Response 400
                           (ErrorBody "BAD_REQUEST_ERROR"
                              "Only successful payments can be refunded")))
      | Some payment =>
          if negb (p_status payment =? "success") then
            (w, Responded (Response 400
                             (ErrorBody "BAD_REQUEST_ERROR"
                                "Only successful payments can be refunded")))
          else (w, ReadTotal payment)
      end
  | ReadTotal payment =>
      let totalRefunded :=
        RefundRepository.getTotalRefundedAmount w (rr_payment_id c) in
      if limit_exceeded (rr_requestedAmount c) totalRefunded
           (p_amount payment) then
        (w, Responded (Response 400
                         (ErrorBody "BAD_REQUEST_ERROR"
                            "Refund amount exceeds available balance")))
      else (w, InsertRow payment)
  | InsertRow payment =>
      match amount_parameter (rr_requestedAmount c) with
      | None =>
          (w, Responded (Response 500
                           (PlainErrorBody "Refund processing failed")))
      | Some amount =>
          if RefundRepository.insert_conflict w (rr_refundId c) amount None
          then
            (w, Responded (Response 500
                             (PlainErrorBody "Refund processing failed")))
          else
            (set_refunds
               (fun rs => rs ++ [Refund (rr_refundId c) (rr_payment_id c)
                                   (p_merchant_id payment) amount
                                   (rr_reason c) "pending" None (rr_now c)
                                   None]) w,
             AddJob)
      end
  | AddJob =>
      if rr_queue_down c then
        (w, Responded (Response 500
                         (PlainErrorBody "Refund processing failed")))
      else
        (set_refund_queue (fun q => q ++ [rr_refundId c]) w,
         Responded (Response 201
                      (RouteRefundBody (rr_refundId c) (rr_payment_id c)
                         (rr_requestedAmount c) "pending")))
  | Responded r => (w, Responded r)
  end.

End RefundRoute.

Section ManualRetry.

(** [JSON.parse(w.payload)] on the value the driver returns for the
    [JSONB] column; [None] when it throws. *)
Variable JSON_parse : payload -> option payload.

Definition is_log (webhook_id : nat) (l : webhook_log) : bool :=
  (wl_id l =? webhook_id)%nat.

Definition owned_by (merchantId : string) (l : webhook_log) : bool :=
  match wl_merchant_id l with
  | Some m => m =? merchantId
  | None => false
  end.

(** [UPDATE webhook_logs SET status = 'pending', attempts = 0,
    next_retry_at = NOW(), response_code = NULL, response_body = NULL]. *)
Definition rearm (now : Z) (l : webhook_log) : webhook_log :=
  WebhookLog (wl_id l) (wl_merchant_id l) (wl_event l) (wl_payload l)
    "pending" 0 (wl_last_attempt_at l) (Some now) None None.

(** [POST /api/v1/webhooks/:webhook_id/retry]. *)
Definition post_webhook_retry (w : world) (merchantId : string)
    (webhook_id : nat) (now : Z) : world * response :=
  match List.find (fun l => is_log webhook_id l && owned_by merchantId l)
          (webhook_logs w) with
  | None => (w, Response 404 (PlainErrorBody "Webhook log not found"))
  | Some row =>
      let w1 := set_webhook_logs
                  (map (fun l => if is_log webhook_id l then rearm now l
                                 else l)) w in
      match JSON_parse (wl_payload row) with
      | None => (w1, Response 500 (PlainErrorBody "Unexpected token in JSON"))
      | Some parsed =>
          let paymentId :=
            match pl_payment parsed with
            | Some (id, _) => if id =? "" then None else Some id
            | None => None
            end in
          let job := WebhookJob (wl_event row) paymentId None
                       (wl_merchant_id row) (Some 1) in
          (set_webhook_queue (fun q => q ++ [(job, 0)]) w1,
           Response 200
             (RetryBody webhook_id "pending" "Webhook retry scheduled"))
      end
  end.

End ManualRetry.

(** [s.replace(pat, '')]: the first occurrence of [pat] is removed. *)
Fixpoint remove_first (pat s : string) : string :=
  if String.prefix pat s then
    String.substring (String.length pat)
      (String.length s - String.length pat) s
  else
    match s with
    | EmptyString => EmptyString
    | String c s' => String c (remove_first pat s')
    end.

(** [req.headers['x-api-key'] ||
    req.headers['authorization']?.replace('Bearer ', '')]. *)
Definition presented_key (x_api_key authorization : option string)
    : option string :=
  if truthy x_api_key then x_api_key
  else remove_first "Bearer " <$> authorization.

(** What [authMiddleware] does with a request: [next()] with
    [req.merchantId] set, or a 401 with a message. *)
Inductive auth_result :=
| Authenticated (merchantId : string)
| Unauthorized (message : string).

Definition has_api_key (k : string) (row : string * merchant) : bool :=
  m_api_key (snd row) =? k.

(** [authMiddleware]: the first row of
    [SELECT id FROM merchants WHERE api_key = $1] names the merchant. *)
Definition authMiddleware (w : world)
    (x_api_key authorization : option string) : auth_result :=
  let apiKey := presented_key x_api_key authorization in
  if negb (truthy apiKey) then
    Unauthorized
      "API key required in x-api-key header or Authorization bearer token"
  else
    match List.find (has_api_key (default "" apiKey))
            (map_to_list (merchants w)) with
    | None => Unauthorized "Invalid API key"
    | Some (id, _) => Authenticated id
    end.

(** The columns [GET /api/v1/webhooks] selects ([created_at], which the
    database sets, is the position in the log). *)
Record webhook_summary := WebhookSummary {
  ws_id : nat;
  ws_event : string;
  ws_status : string;
  ws_attempts : Z;
  ws_last_attempt_at : option Z;
  ws_response_code : option Z
}.

Definition summary (l : webhook_log) : webhook_summary :=
  WebhookSummary (wl_id l) (wl_event l) (wl_status l) (wl_attempts l)
    (wl_last_attempt_at l) (wl_response_code l).

(** [parseInt(req.query.name || fallback)] by what it yields: the
    fallback when the parameter is absent or empty, the number parsed, or
    [NaN]. *)
Inductive query_number :=
| Absent
| Parsed (n : Z)
| NotANumber.

Definition query_or (fallback : Z) (q : query_number) : option Z :=
  match q with
  | Absent => Some fallback
  | Parsed n => Some n
  | NotANumber => None
  end.

Inductive listing :=
| Listing (data : list webhook_summary) (total : nat) (limit offset : Z)
| ListingError.

(** What [LIMIT] and [OFFSET] take: a [bigint] that is not negative. *)
Definition row_count (n : Z) : bool := (0 <=? n)%Z && (n <? 2 ^ 63)%Z.

(** [GET /api/v1/webhooks]: the merchant's records, newest first (the log
    is kept in the order of [created_at]), [LIMIT] and [OFFSET] as asked;
    the database refuses [NaN], negative values and values beyond
    [bigint], which yields a 500. *)
Definition get_webhooks (w : world) (merchantId : string)
    (limit offset : query_number) : listing :=
  match query_or 10 limit, query_or 0 offset with
  | Some l, Some o =>
      if negb (row_count l && row_count o) then ListingError
      else
        let owned := List.filter (owned_by merchantId) (webhook_logs w) in
        Listing
          (map summary (take (Z.to_nat l) (drop (Z.to_nat o) (rev owned))))
          (length owned) l o
  | _, _ => ListingError
  end.

End Server.

(** ** Workers *)

(** [process.env.NAME === 'value'], with [process.env] a finite map. *)
Definition env_is (env : gmap string string) (name value : string) : bool :=
  match env !! name with
  | Some v => v =? value
  | None => false
  end.

(** Infrastructure failures a payment job can meet: the [SELECT], the
    status [UPDATE], [webhookQueue.add], and the [UPDATE] of the enhanced
    worker's [catch] block. *)
Record faults := Faults {
  select_fails : bool;
  update_fails : bool;
  enqueue_fails : bool;
  mark_failed_fails : bool
}.

Definition no_faults : faults := Faults false false false false.

(** [UPDATE payments SET status = $1, updated_at = NOW() WHERE id = $2]. *)
Definition set_payment_status (status : string) (now : Z) (p : payment)
    : payment :=
  Payment (p_merchant_id p) (p_order_id p) (p_amount p) status (p_method p) now.

Definition update_payment_status (paymentId status : string) (now : Z)
    (w : world) : world :=
  set_payments (alter (set_payment_status status now) paymentId) w.

Definition method_is (p : payment) (m : string) : bool :=
  match p_method p with
  | Some m' => m' =? m
  | None => false
  end.

Definition payment_webhook (status paymentId : string) (p : payment)
    : webhook_job * Z :=
  (WebhookJob (String.append "payment." status) (Some paymentId) None
     (p_merchant_id p) None, 0).

Module PaymentWorker.

(** Step 3 of the job: the outcome.  Outside test mode [payment.method] is
    read, which throws when the payment row is missing. *)
Definition determine_outcome (env : gmap string string) (chance : Q)
    (payment : option payment) : result bool :=
  if env_is env "TEST_MODE" "true" then
    Ok (negb (env_is env "TEST_PAYMENT_SUCCESS" "false"))
  else
    match payment with
    | None => Throw (plain_error
                       "Cannot read properties of undefined (reading 'method')")
    | Some p =>
        Ok (if method_is p "upi" then Qle_bool chance 90
            else Qle_bool chance 95)
    end.

(** The [payment-queue] job handler. *)
Definition process (w : world) (env : gmap string string) (flt : faults)
    (chance : Q) (paymentId : string) (now : Z) : world * result unit :=
  if select_fails flt then (w, Throw (plain_error "select failed"))
  else
    let payment := payments w !! paymentId in
    match determine_outcome env chance payment with
    | Throw e => (w, Throw e)
    | Ok success =>
        let status := if success then "success" else "failed" in
        if update_fails flt then (w, Throw (plain_error "update failed"))
        else
          let w1 := update_payment_status paymentId status now w in
          match payment with
          | None =>
              (w1, Throw (plain_error
                 "Cannot read properties of undefined (reading 'merchant_id')"))
          | Some p =>
              if enqueue_fails flt
              then (w1, Throw (plain_error "enqueue failed"))
              else (set_webhook_queue
                      (fun q => q ++ [payment_webhook status paymentId p]) w1,
                    Ok tt)
          end
    end.

End PaymentWorker.

Module PaymentWorkerEnhanced.

(** The [try] block. *)
Definition attempt (w : world) (env : gmap string string) (flt : faults)
    (chance : Q) (paymentId : string) (now : Z) : world * result unit :=
  if select_fails flt then (w, Throw (plain_error "select failed"))
  else
    match payments w !! paymentId with
    | None =>
        (w, Throw (plain_error (String.append "Payment not found: " paymentId)))
    | Some p =>
        match PaymentWorker.determine_outcome env chance (Some p) with
        | Throw e => (w, Throw e)
        | Ok success =>
            let status := if success then "success" else "failed" in
            if update_fails flt then (w, Throw (plain_error "update failed"))
            else
              let w1 := update_payment_status paymentId status now w in
              if enqueue_fails flt
              then (w1, Throw (plain_error "enqueue failed"))
              else (set_webhook_queue
                      (fun q => q ++ [payment_webhook status paymentId p]) w1,
                    Ok tt)
        end
    end.

(** The job handler: the [try] block, and on any error the [catch] block,
    which marks the payment failed (an error of that [UPDATE] is only
    logged) and rethrows. *)
Definition process (w : world) (env : gmap string string) (flt : faults)
    (chance : Q) (paymentId : string) (now : Z) : world * result unit :=
  match attempt w env flt chance paymentId now with
  | (w', Ok u) => (w', Ok u)
  | (w', Throw err) =>
      ((if mark_failed_fails flt then w'
        else update_payment_status paymentId "failed" now w'),
       Throw err)
  end.

End PaymentWorkerEnhanced.

Module RefundWorker.

(** [UPDATE refunds SET status = 'processed', processed_at = NOW()
    WHERE id = $1]. *)
Definition mark_processed (now : Z) (r : refund) : refund :=
  Refund (r_id r) (r_payment_id r) (r_merchant_id r) (r_amount r)
    (r_reason r) "processed" (r_idempotency_key r) (r_created_at r)
    (Some now).

(** The [refund-queue] job handler. *)
Definition process (w : world) (refundId : string) (now : Z)
    : world * result unit :=
  let w1 := set_refunds
              (map (fun r => if RefundRepository.has_id refundId r
                             then mark_processed now r else r)) w in
  match RefundRepository.getRefundById w1 refundId with
  | None =>
      (w1, Throw (plain_error
         "Cannot read properties of undefined (reading 'merchant_id')"))
  | Some refund =>
      (set_webhook_queue
         (fun q => q ++ [(WebhookJob "refund.processed" None (Some refundId)
                            (r_merchant_id refund) None, 0)]) w1,
       Ok tt)
  end.

End RefundWorker.

Module WebhookWorker.

(** [delays[i]] for a JavaScript number [i]: [undefined] out of range. *)
Definition js_index (l : list Z) (i : Z) : option Z :=
  if (0 <=? i)%Z then l !! Z.to_nat i else None.

Definition delays (env : gmap string string) : list Z :=
  if env_is env "WEBHOOK_RETRY_INTERVALS_TEST" "true"
  then [0; 5; 10; 15; 20]
  else [0; 60; 300; 1800; 7200].

(** [delays[attempt] || delays[delays.length - 1]]. *)
Definition delaySeconds (env : gmap string string) (attempt : Z) : Z :=
  let fallback := default 0 (last (delays env)) in
  match js_index (delays env) attempt with
  | Some d => if (d =? 0)%Z then fallback else d
  | None => fallback
  end.

(** [err?.response?.status || null]. *)
Definition response_status (o : http_outcome) : option Z :=
  match o with
  | HttpStatus s => if (s =? 0)%Z then None else Some s
  | NoResponse => None
  end.

(** axios resolves on a 2xx status and rejects otherwise. *)
Definition delivered (o : http_outcome) : bool :=
  match o with
  | HttpStatus s => (200 <=? s)%Z && (s <? 300)%Z
  | NoResponse => false
  end.

(** An [INSERT INTO webhook_logs] inside its own [try]/[catch]: when the
    column types refuse the row the error is only logged and no row is
    stored.  The generated id is the number of rows stored so far. *)
Definition insert_log (w : world) (merchantId : option string)
    (event : string) (p : payload) (status : string) (attempts : Z)
    (last_attempt_at next_retry_at response_code : option Z) : world :=
  if Schema.varchar 50 event && Schema.integer attempts then
    set_webhook_logs
      (fun ls => ls ++ [WebhookLog (length ls) merchantId event p status
                          attempts last_attempt_at next_retry_at
                          response_code None]) w
  else w.

(** [{ ...job.data, attempt: attempt + 1 }], the job re-enqueued after a
    failure at [attempt]. *)
Definition next_job (job : webhook_job) (attempt : Z) : webhook_job :=
  WebhookJob (wj_event job) (wj_paymentId job) (wj_refundId job)
    (wj_merchantId job) (Some (attempt + 1)%Z).

Section Delivery.

(** [crypto.createHmac('sha256', secret).update(JSON.stringify(payload))
    .digest('hex')]. *)
Variable hmac_sha256_hex : string -> payload -> string.

(** The merchant's endpoint. *)
Variable post : http_request -> http_outcome.

Variable env : gmap string string.

(** The [catch] block of the delivery. *)
Definition on_failure (w : world) (job : webhook_job) (attempt : Z)
    (p : payload) (o : http_outcome) (now : Z) : world :=
  if (attempt <? 5)%Z then
    let delay := delaySeconds env attempt in
    let nextRetryAt := now + delay * 1000 in
    let w1 := insert_log w (wj_merchantId job) (wj_event job) p "pending"
                (attempt + 1) (Some now) (Some nextRetryAt) None in
    set_webhook_queue
      (fun q => q ++ [(next_job job attempt, delay * 1000)]) w1
  else
    insert_log w (wj_merchantId job) (wj_event job) p "failed" attempt
      (Some now) None (response_status o).

(** The [webhook-queue] job handler; [now] is [Date.now()]. *)
Definition process (w : world) (job : webhook_job) (now : Z)
    : world * result unit :=
  let attempt := default 1 (wj_attempt job) in
  let merchant :=
    match wj_merchantId job with
    | Some id => merchants w !! id
    | None => None
    end in
  match merchant with
  | None => (w, Ok tt)
  | Some m =>
    if negb (truthy (m_webhook_url m)) then (w, Ok tt)
    else
      let url := default "" (m_webhook_url m) in
      let payment :=
        match wj_paymentId job with
        | Some id => (fun p => (id, p)) <$> payments w !! id
        | None => None
        end in
      let p := Payload (wj_event job) (now / 1000) payment in
      match m_webhook_secret m with
      | None =>
          (w, Throw (plain_error
             "The key argument must be of type string"))
      | Some secret =>
          let request := HttpRequest url p (hmac_sha256_hex secret p) in
          let w1 := set_http_sent (fun s => s ++ [request]) w in
          let o := post request in
          if delivered o then
            (insert_log w1 (wj_merchantId job) (wj_event job) p "success"
               attempt (Some now) None None, Ok tt)
          else
            (on_failure w1 job attempt p o now, Ok tt)
      end
  end.

(** The queue's consumer: jobs are taken in order, each when its delay has
    passed; [fuel] bounds the number of jobs taken. *)
Fixpoint run (fuel : nat) (w : world) (now : Z) : world :=
  match fuel with
  | O => w
  | S fuel' =>
      match webhook_queue w with
      | [] => w
      | (job, delay) :: rest =>
          let now' := now + delay in
          run fuel'
            (fst (process (set_webhook_queue (fun _ => rest) w) job now'))
            now'
      end
  end.

End Delivery.

End WebhookWorker.

(** ** The test merchant's webhook receiver *)

Module TestMerchant.

Section Receiver.

Variable hmac_sha256_hex : string -> payload -> string.

(** [process.env.TEST_MERCHANT_SECRET || 'whsec_test_abc123']. *)
Definition SECRET (env : gmap string string) : string :=
  if truthy (env !! "TEST_MERCHANT_SECRET")
  then default "" (env !! "TEST_MERCHANT_SECRET")
  else "whsec_test_abc123".

(** [expected === signature], with [expected] the HMAC of the body
    received under [SECRET]. *)
Definition signature_valid (env : gmap string string) (r : http_request)
    : bool :=
  hmac_sha256_hex (SECRET env) (hr_payload r) =? hr_signature r.

(** [POST /webhook] answers 500 whatever it receives. *)
Definition webhook (r : http_request) : http_outcome := HttpStatus 500.

End Receiver.

End TestMerchant.

(** * Vocabulary of the properties *)

Section RefundCalls.
Import RefundRepository.

Variable to_number : string -> js_number.
Variable integer_in : string -> option Z.

(** The outstanding refunds of a payment stay within its amount. *)
Definition refund_limit_holds (w : world) (paymentId : string) : Prop :=
  forall p, payments w !! paymentId = Some p ->
            (getTotalRefundedAmount w paymentId <= p_amount p)%Z.

(** A refund request, through the service or through the route of
    [server.js], with the values drawn from outside. *)
Inductive refund_call :=
| ViaService (c : RefundService.call)
| ViaRoute (c : Server.refund_request).

(** The amount of the request is a JSON number (the controller lets
    nothing else reach the service; the route checks no type). *)
Definition numeric_amount (c : refund_call) : Prop :=
  match c with
  | ViaService _ => True
  | ViaRoute c => exists n, Server.rr_requestedAmount c = JNumber n
  end.

(** A call run from its first statement to its last. *)
Definition do_refund_call (w : world) (c : refund_call) : world :=
  match c with
  | ViaService c =>
      fst (RefundService.processRefund w (RefundService.c_paymentId c)
             (RefundService.c_requestedAmount c) (RefundService.c_reason c)
             (RefundService.c_idempotencyKey c) (RefundService.c_refundId c)
             (RefundService.c_now c) (RefundService.c_queue_down c))
  | ViaRoute c =>
      fst (Server.post_refunds to_number integer_in w (Server.rr_merchantId c)
             (Server.rr_payment_id c) (Server.rr_requestedAmount c)
             (Server.rr_reason c) (Server.rr_refundId c) (Server.rr_now c)
             (Server.rr_queue_down c))
  end.

(** Calls run one after another: each has returned before the next is
    made. *)
Definition do_refund_calls (w : world) (calls : list refund_call) : world :=
  fold_left do_refund_call calls w.

(** A call in flight: the call and where it stands. *)
Inductive in_flight :=
| InService (c : RefundService.call) (at_ : RefundService.progress)
| InRoute (c : Server.refund_request) (at_ : Server.route_progress).

Definition arriving (c : refund_call) : in_flight :=
  match c with
  | ViaService c => InService c RefundService.Lookup
  | ViaRoute c => InRoute c Server.ReadPayment
  end.

(** The next statement of a call in flight. *)
Definition advance (w : world) (t : in_flight) : world * in_flight :=
  match t with
  | InService c at_ =>
      let (w', at') := RefundService.advance c w at_ in (w', InService c at')
  | InRoute c at_ =>
      let (w', at') := Server.advance_refund to_number integer_in c w at_ in
      (w', InRoute c at')
  end.

(** Calls in flight together: each number of the schedule lets the call
    at that position issue its next statement. *)
Fixpoint interleave (schedule : list nat) (w : world) (ts : list in_flight)
    : world * list in_flight :=
  match schedule with
  | [] => (w, ts)
  | i :: schedule' =>
      match ts !! i with
      | None => interleave schedule' w ts
      | Some t =>
          let (w', t') := advance w t in
          interleave schedule' w' (<[i := t']> ts)
      end
  end.

(** A call issuing its next [n] statements with nothing in between. *)
Fixpoint run_alone (n : nat) (w : world) (t : in_flight)
    : world * in_flight :=
  match n with
  | O => (w, t)
  | S n' => let (w', t') := advance w t in run_alone n' w' t'
  end.

(** The schedule on which [n] calls do not overlap: all five statements
    of a call come before the first statement of the next. *)
Definition serial (n : nat) : list nat :=
  flat_map (fun i => repeat i 5) (seq 0 n).

(** The world after a refund row and its job have been added. *)
Definition with_refund (w : world) (row : refund) : world :=
  set_refund_queue (fun q => q ++ [r_id row])
    (set_refunds (fun rs => rs ++ [row]) w).

(** What a refund request does to the world: nothing, or one pending row
    within the limit, with its job unless the queue is down. *)
Definition refund_step (w w' : world) : Prop :=
  w' = w
  \/ exists p row,
       payments w !! r_payment_id row = Some p
       /\ (r_amount row + getTotalRefundedAmount w (r_payment_id row)
           <= p_amount p)%Z
       /\ (w' = with_refund w row
           \/ w' = set_refunds (fun rs => rs ++ [row]) w).

End RefundCalls.

(** ** Sample data *)

(** A successful payment of 1000 of merchant [m_1]. *)
Definition pay_1 : payment :=
  Payment (Some "m_1") "order_1" 1000 "success" (Some "upi") 0.

Definition shop : merchant :=
  Merchant "key_1" (Some "https://shop.example/hook") (Some "whsec_1").

Definition world_1 : world :=
  set_payments (insert "pay_1" pay_1)
    (World ∅ [] {[ "m_1" := shop ]} ∅ [] [] [] [] []).

(** [pay_1] with its whole amount refunded. *)
Definition world_fully_refunded : world :=
  set_refunds
    (fun _ => [Refund "rfnd_1" "pay_1" (Some "m_1") 1000 (Some "returned")
                 "pending" (Some "key_1") 1 None])
    world_1.

(** The same HTTP refund request submitted once per element of [draws],
    each submission after the previous one has been answered; each draws
    its own refund id and time and finds the queue up or down. *)
Fixpoint createRefund_repeat (w : world) (paymentId : string)
    (requestedAmount reason : js_value) (idempotencyKey : option string)
    (draws : list (string * Z * bool)) : world * list response :=
  match draws with
  | [] => (w, [])
  | (refundId, now, queue_down) :: draws' =>
      let (w1, r) := RefundController.createRefund w paymentId
                       requestedAmount reason idempotencyKey refundId now
                       queue_down in
      let (w2, rs) := createRefund_repeat w1 paymentId requestedAmount
                        reason idempotencyKey draws' in
      (w2, r :: rs)
  end.

(** Test mode with a failing outcome, as the environment sets it. *)
Definition env_test_failure : gmap string string :=
  {[ "TEST_MODE" := "true"; "TEST_PAYMENT_SUCCESS" := "false" ]}.

Definition env_test_success : gmap string string :=
  {[ "TEST_MODE" := "true" ]}.

(** A refund of [pay_1] that was marked failed. *)
Definition world_failed_refund : world :=
  set_refunds
    (fun _ => [Refund "rfnd_1" "pay_1" (Some "m_1") 400 (Some "returned")
                 "failed" None 1 None])
    world_1.

(** The queue is down when the webhook job is to be added. *)
Definition enqueue_fault : faults := Faults false false true false.

(** [world_1] with a second merchant [m_2], who owns nothing. *)
Definition world_two_tenants : world :=
  World (payments world_1) (refunds world_fully_refunded)
    (<[ "m_2" := Merchant "key_2" None None ]> (merchants world_1))
    ∅ [] [] [] [] [].

(** The same world without anything of [m_1]. *)
Definition world_only_m_2 : world :=
  World ∅ [] {[ "m_2" := Merchant "key_2" None None ]} ∅ [] [] [] [] [].

(** A delivery job can reach the endpoint: its merchant has a URL and a
    secret. *)
Definition deliverable (w : world) (job : webhook_job) : Prop :=
  exists mid m url secret,
    wj_merchantId job = Some mid
    /\ merchants w !! mid = Some m
    /\ m_webhook_url m = Some url
    /\ url <> ""
    /\ m_webhook_secret m = Some secret.

(** The event of [pay_1] as the payment worker enqueues it. *)
Definition job_1 : webhook_job :=
  WebhookJob "payment.success" (Some "pay_1") None (Some "m_1") None.

Definition world_job_1 : world :=
  set_webhook_queue (fun _ => [(job_1, 0%Z)]) world_1.

(** An endpoint that answers 500 to everything. *)
Definition always_500 (r : http_request) : http_outcome := HttpStatus 500.

Definition constant_signature (secret : string) (p : payload) : string :=
  "5d41402abc4b2a76b9719d911017c592".

(** A log with a terminally failed delivery of merchant [m_1]. *)
Definition world_failed_delivery : world :=
  set_webhook_logs
    (fun _ => [WebhookLog 0 (Some "m_1") "payment.success"
                 (Payload "payment.success" 7 (Some ("pay_1", pay_1)))
                 "failed" 5 (Some 7000%Z) None (Some 500%Z) None])
    world_1.

(** The two conversions as far as the examples need them: a string of
    decimal digits with blanks around it is the number it spells, for
    JavaScript as for the database, and a string with a digit after a
    blank or with another character in it is no number for either.  (The
    empty string, signs, fractions and exponents do not occur in the
    examples and are not told apart from these.) *)
Definition digit (c : Ascii.ascii) : option Z :=
  let n := Ascii.nat_of_ascii c in
  if (48 <=? n)%nat && (n <=? 57)%nat then Some (Z.of_nat (n - 48)) else None.

Definition blank (c : Ascii.ascii) : bool :=
  let n := Ascii.nat_of_ascii c in
  ((9 <=? n)%nat && (n <=? 13)%nat) || (n =? 32)%nat.

Fixpoint all_blank (s : string) : bool :=
  match s with
  | EmptyString => true
  | String c s' => blank c && all_blank s'
  end.

Fixpoint skip_blanks (s : string) : string :=
  match s with
  | EmptyString => EmptyString
  | String c s' => if blank c then skip_blanks s' else s
  end.

Fixpoint digits_then_blanks (acc : option Z) (s : string) : option Z :=
  match s with
  | EmptyString => acc
  | String c s' =>
      match digit c with
      | Some d => digits_then_blanks (Some (10 * default 0 acc + d)%Z) s'
      | None => if all_blank s then acc else None
      end
  end.

Definition spelled (s : string) : option Z :=
  digits_then_blanks None (skip_blanks s).

Definition digits_to_number (s : string) : js_number :=
  match spelled s with
  | Some n => Finite (inject_Z n)
  | None => NaN
  end.

Definition digits_integer_in (s : string) : option Z :=
  match spelled s with
  | Some n => if Schema.integer n then Some n else None
  | None => None
  end.

(** Two refunds of 600 of [pay_1] requested through the service. *)
Definition call_a : RefundService.call :=
  RefundService.Call "pay_1" 600 "damaged" None "rfnd_a" 1 false.

Definition call_b : RefundService.call :=
  RefundService.Call "pay_1" 600 "damaged" None "rfnd_b" 2 false.

(** One refund of 300 of [pay_1] submitted twice under the key [key_7]. *)
Definition submission_a : RefundService.call :=
  RefundService.Call "pay_1" 300 "damaged" (Some "key_7") "rfnd_a" 1 false.

Definition submission_b : RefundService.call :=
  RefundService.Call "pay_1" 300 "damaged" (Some "key_7") "rfnd_b" 2 false.

(** Two calls whose statements alternate. *)
Definition alternating : list nat := [0; 1; 0; 1; 0; 1; 0; 1; 0; 1]%nat.

(** The receiver's environment holding the secret of [shop]. *)
Definition receiver_env : gmap string string :=
  {[ "TEST_MERCHANT_SECRET" := "whsec_1" ]}.

(** A key too long for the [key] column of [idempotency_keys]. *)
Definition long_key : string :=
  String.concat "" (List.repeat "0123456789abcdef" 17).

(** [world_failed_delivery] with a record of another merchant. *)
Definition world_two_logs : world :=
  set_webhook_logs
    (fun ls => ls ++ [WebhookLog 1 (Some "m_2") "payment.failed"
                        (Payload "payment.failed" 8 None)
                        "success" 1 (Some 8000%Z) None None None])
    world_failed_delivery.




(** A request as the worker makes it for a merchant of the world. *)
Definition signed_for (hmac_sha256_hex : string -> payload -> string)
    (w : world) (r : http_request) : Prop :=
  exists mid m secret,
    merchants w !! mid = Some m
    /\ m_webhook_url m = Some (hr_url r)
    /\ m_webhook_secret m = Some secret
    /\ hr_signature r = hmac_sha256_hex secret (hr_payload r).

(** A record as the worker writes it for one of the requests [rs] it has
    sent: the record holds the body of that request, and its status is
    [success] when the endpoint acknowledged that request and [pending] or
    [failed] when it did not. *)
Definition logged_outcome (post : http_request -> http_outcome)
    (rs : list http_request) (l : webhook_log) : Prop :=
  exists r,
    In r rs
    /\ hr_payload r = wl_payload l
    /\ if WebhookWorker.delivered (post r)
       then wl_status l = "success"
       else wl_status l = "pending" \/ wl_status l = "failed".

(** * Properties *)

(** ** Refund limit *)

Section RefundLimit.
Import RefundRepository.

Variable to_number : string -> js_number.
Variable integer_in : string -> option Z.

Local Abbreviation post_refunds := (Server.post_refunds to_number integer_in).
Local Abbreviation one_call := (do_refund_call to_number integer_in).
Local Abbreviation calls_in_turn := (do_refund_calls to_number integer_in).
Local Abbreviation interleaved := (interleave to_number integer_in).
Local Abbreviation alone := (run_alone to_number integer_in).

Lemma sum_amounts_app paymentId rs1 rs2 :
  sum_amounts paymentId (rs1 ++ rs2)
  = (sum_amounts paymentId rs1 + sum_amounts paymentId rs2)%Z.
Proof.
  induction rs1 as [|r rs1 IH]; simpl; [reflexivity|].
  rewrite IH. lia.
Qed.

Lemma total_with_row w row paymentId :
  getTotalRefundedAmount (set_refunds (fun rs => rs ++ [row]) w) paymentId
  = (getTotalRefundedAmount w paymentId
     + if refund_of paymentId row then r_amount row else 0)%Z.
Proof.
  unfold getTotalRefundedAmount. simpl.
  rewrite sum_amounts_app. simpl. lia.
Qed.

Lemma total_with_refund w row paymentId :
  getTotalRefundedAmount (with_refund w row) paymentId
  = (getTotalRefundedAmount w paymentId
     + if refund_of paymentId row then r_amount row else 0)%Z.
Proof.
  unfold with_refund. apply (total_with_row w row paymentId).
Qed.

Lemma processRefund_step w paymentId amount reason key refundId now
    queue_down :
  refund_step w
    (fst (RefundService.processRefund w paymentId amount reason key
            refundId now queue_down)).
Proof.
  unfold RefundService.processRefund.
  destruct (RefundService.existingRefund w key); [left; reflexivity|].
  unfold getPaymentById.
  destruct (payments w !! paymentId) as [p|] eqn:Hp; [|left; reflexivity].
  destruct (negb _); [left; reflexivity|].
  destruct (_ >? _)%Z eqn:Hlim; [left; reflexivity|].
  destruct (_ <=? _)%Z; [left; reflexivity|].
  unfold createRefund.
  destruct (insert_conflict _ _ _ _ || _ || _); [left; reflexivity|].
  right. eexists p, (Refund _ _ _ _ _ _ _ _ _). simpl.
  split; [exact Hp|]. split.
  { rewrite Z.gtb_ltb in Hlim. apply Z.ltb_ge in Hlim. exact Hlim. }
  destruct queue_down; [right | left]; reflexivity.
Qed.

Lemma post_refunds_step w merchantId payment_id n reason refundId now
    queue_down :
  refund_step w
    (fst (post_refunds w merchantId payment_id (JNumber n) reason refundId
            now queue_down)).
Proof.
  unfold Server.post_refunds.
  destruct (payments w !! payment_id) as [p|] eqn:Hp; [|left; reflexivity].
  destruct (negb _); [left; reflexivity|].
  unfold Server.limit_exceeded, Server.amount_parameter.
  destruct (_ >? _)%Z eqn:Hlim; [left; reflexivity|].
  destruct (insert_conflict _ _ _ _); [left; reflexivity|].
  right. eexists p, (Refund _ _ _ _ _ _ _ _ _). simpl.
  split; [exact Hp|]. split.
  { rewrite Z.gtb_ltb in Hlim. apply Z.ltb_ge in Hlim. exact Hlim. }
  destruct queue_down; [right | left]; reflexivity.
Qed.

Lemma refund_step_payments w w' :
  refund_step w w' -> payments w' = payments w.
Proof.
  intros [->|(p & row & _ & _ & [->| ->])]; reflexivity.
Qed.

Lemma refund_step_limit w w' paymentId :
  refund_step w w' ->
  refund_limit_holds w paymentId -> refund_limit_holds w' paymentId.
Proof.
  intros [->|(p & row & Hp & Hle & Hw')] Hinv; [exact Hinv|].
  intros q Hq.
  assert (Hq' : payments w !! paymentId = Some q).
  { destruct Hw' as [-> | ->]; exact Hq. }
  assert (Htotal : getTotalRefundedAmount w' paymentId
                   = (getTotalRefundedAmount w paymentId
                      + if refund_of paymentId row then r_amount row else 0)%Z).
  { destruct Hw' as [-> | ->];
      [apply total_with_refund | apply total_with_row]. }
  rewrite Htotal. specialize (Hinv q Hq').
  destruct (refund_of paymentId row) eqn:Hof; [|lia].
  unfold refund_of in Hof. apply andb_prop in Hof as [Hid _].
  apply String.eqb_eq in Hid. rewrite Hid in Hp, Hle.
  rewrite Hq' in Hp. injection Hp as <-. lia.
Qed.

Lemma do_refund_call_step w c :
  numeric_amount c -> refund_step w (one_call w c).
Proof.
  destruct c as [c|c]; simpl.
  - intros _. apply processRefund_step.
  - intros [n ->]. apply post_refunds_step.
Qed.

Lemma do_refund_calls_payments calls w :
  Forall numeric_amount calls ->
  payments (calls_in_turn w calls) = payments w.
Proof.
  revert w. induction calls as [|c calls IH]; intros w Hnum; [reflexivity|].
  change (calls_in_turn w (c :: calls))
    with (calls_in_turn (one_call w c) calls).
  apply Forall_cons in Hnum as [Hc Hnum].
  rewrite IH by exact Hnum.
  apply refund_step_payments, do_refund_call_step, Hc.
Qed.

Lemma do_refund_calls_limit calls w paymentId :
  Forall numeric_amount calls ->
  refund_limit_holds w paymentId ->
  refund_limit_holds (calls_in_turn w calls) paymentId.
Proof.
  revert w. induction calls as [|c calls IH]; intros w Hnum Hinv;
    [exact Hinv|].
  change (calls_in_turn w (c :: calls))
    with (calls_in_turn (one_call w c) calls).
  apply Forall_cons in Hnum as [Hc Hnum].
  apply IH; [exact Hnum|].
  eapply refund_step_limit; [apply do_refund_call_step, Hc | exact Hinv].
Qed.

(** A call that issues its five statements with nothing in between does
    what the handler run in one piece does. *)
Lemma run_alone_call w c :
  fst (alone 5 w (arriving c)) = one_call w c.
Proof.
  destruct c as [c|c]; unfold run_alone, do_refund_call, arriving, advance.
  - unfold RefundService.processRefund.
    cbn [RefundService.advance].
    destruct (RefundService.existingRefund w _); [reflexivity|].
    cbn [RefundService.advance].
    destruct (getPaymentById w _) as [p|]; [|reflexivity].
    destruct (negb _); [reflexivity|].
    cbn [RefundService.advance]. cbv zeta.
    destruct (_ >? _)%Z; [reflexivity|].
    destruct (_ <=? _)%Z; [reflexivity|].
    cbn [RefundService.advance].
    destruct (createRefund _ _ _ _ _ _ _ _ _) as [w' [r|e]];
      [|reflexivity].
    cbn [RefundService.advance].
    destruct (RefundService.c_queue_down c); reflexivity.
  - unfold Server.post_refunds.
    cbn [Server.advance_refund].
    destruct (payments w !! _) as [p|]; [|reflexivity].
    destruct (negb _); [reflexivity|].
    cbn [Server.advance_refund]. cbv zeta.
    destruct (Server.limit_exceeded _ _ _ _); [reflexivity|].
    cbn [Server.advance_refund].
    destruct (Server.amount_parameter _ _) as [amount|]; [|reflexivity].
    destruct (insert_conflict _ _ _ _); [reflexivity|].
    cbn [Server.advance_refund].
    destruct (Server.rr_queue_down c); reflexivity.
Qed.

Lemma interleave_app l1 l2 w ts :
  interleaved (l1 ++ l2) w ts
  = interleaved l2 (fst (interleaved l1 w ts)) (snd (interleaved l1 w ts)).
Proof.
  revert w ts. induction l1 as [|i l1 IH]; intros w ts; [reflexivity|].
  simpl. destruct (ts !! i) as [t|]; [|apply IH].
  destruct (advance _ _ w t) as [w' t']. apply IH.
Qed.

Lemma interleave_repeat n w done t rest :
  interleaved (repeat (length done) n) w (done ++ t :: rest)
  = (fst (alone n w t), done ++ snd (alone n w t) :: rest).
Proof.
  revert w t. induction n as [|n IH]; intros w t; [reflexivity|].
  simpl. rewrite list_lookup_middle by reflexivity.
  destruct (advance _ _ w t) as [w' t'].
  rewrite insert_app_r_alt by lia. rewrite Nat.sub_diag. simpl.
  apply IH.
Qed.

(** Calls on the serial schedule are calls run in turn. *)
Lemma interleave_serial calls done w :
  fst (interleaved
         (flat_map (fun i => repeat i 5) (seq (length done) (length calls)))
         w (done ++ map arriving calls))
  = calls_in_turn w calls.
Proof.
  revert done w. induction calls as [|c calls IH]; intros done w;
    [reflexivity|].
  cbn [length seq flat_map map].
  rewrite interleave_app, interleave_repeat.
  cbn [fst snd]. rewrite run_alone_call.
  change (calls_in_turn w (c :: calls))
    with (calls_in_turn (one_call w c) calls).
  rewrite <- (IH (done ++ [snd (alone 5 w (arriving c))]) (one_call w c)).
  rewrite length_app, Nat.add_1_r, <- app_assoc. reflexivity.
Qed.

End RefundLimit.

Section RefundLimitClaim.
Import RefundRepository.

(** C1 (as amended).  Refund limit invariant for calls that do not
    overlap.  Starting from a world in which the pending and processed
    refunds of a payment [P] sum to at most its amount, after every
    sequence of refund requests whose amounts are JSON numbers (through
    [RefundService.processRefund] or through the route of [server.js])
    that run one after another, each issuing all its statements before the
    next issues its first, the payment row is unchanged and the sum is
    still at most [P]'s amount.  In the world reached, a request whose
    amount added to that sum exceeds [P]'s amount creates no refund row and
    no job: the service returns a refund only when it replays the one
    stored under the idempotency key, and throws
    [REFUND_AMOUNT_EXCEEDS_LIMIT] (400) when no refund is stored under the
    key and the payment is successful; the route answers 400, with the
    limit description when the payment is successful. *)
Theorem refund_limit_invariant (to_number : string -> js_number)
    (integer_in : string -> option Z) (w : world) (calls : list refund_call)
    (P : string) (p : payment) :
  payments w !! P = Some p ->
  (getTotalRefundedAmount w P <= p_amount p)%Z ->
  Forall numeric_amount calls ->
  let w' := do_refund_calls to_number integer_in w calls in
  fst (interleave to_number integer_in (serial (length calls)) w
         (map arriving calls)) = w'
  /\ payments w' !! P = Some p
  /\ (getTotalRefundedAmount w' P <= p_amount p)%Z
  /\ (forall amount reason key refundId now queue_down,
        (amount + getTotalRefundedAmount w' P > p_amount p)%Z ->
        let out := RefundService.processRefund w' P amount reason key
                     refundId now queue_down in
        fst out = w'
        /\ (forall r, snd out = Ok r ->
                      RefundService.existingRefund w' key = Some r)
        /\ (RefundService.existingRefund w' key = None ->
            p_status p = "success" ->
            snd out = Throw (RefundService._createError
                               "REFUND_AMOUNT_EXCEEDS_LIMIT"
                               "Refund amount exceeds available amount" 400)))
  /\ (forall merchantId amount reason refundId now queue_down,
        (amount + getTotalRefundedAmount w' P > p_amount p)%Z ->
        let out := Server.post_refunds to_number integer_in w' merchantId P
                     (JNumber amount) reason refundId now queue_down in
        fst out = w'
        /\ status_code (snd out) = 400%Z
        /\ (p_status p = "success" ->
            json (snd out) = ErrorBody "BAD_REQUEST_ERROR"
                               "Refund amount exceeds available balance")).
Proof.
  intros Hp Hle Hnum w'.
  assert (Hp' : payments w' !! P = Some p).
  { unfold w'. rewrite do_refund_calls_payments by exact Hnum. exact Hp. }
  split; [apply (interleave_serial to_number integer_in calls [] w)|].
  split; [exact Hp'|]. split.
  { assert (Hinv : refund_limit_holds w' P).
    { apply do_refund_calls_limit; [exact Hnum|]. intros q Hq.
      rewrite Hp in Hq. injection Hq as <-. exact Hle. }
    apply Hinv, Hp'. }
  split.
  - intros amount reason key refundId now queue_down Hgt. simpl.
    unfold RefundService.processRefund.
    destruct (RefundService.existingRefund w' key) as [r|] eqn:Hex.
    { simpl. split; [reflexivity|]. split; [|discriminate].
      intros r' [= ->]. reflexivity. }
    unfold getPaymentById. rewrite Hp'.
    destruct (p_status p =? "success") eqn:Hst; simpl.
    + assert (Hlim : (amount + getTotalRefundedAmount w' P >? p_amount p)%Z
                     = true).
      { rewrite Z.gtb_ltb. apply Z.ltb_lt. lia. }
      rewrite Hlim. simpl. split; [reflexivity|].
      split; [discriminate|reflexivity].
    + split; [reflexivity|]. split; [discriminate|].
      intros _ Hs. apply String.eqb_neq in Hst. contradiction.
  - intros merchantId amount reason refundId now queue_down Hgt. simpl.
    unfold Server.post_refunds. rewrite Hp'.
    destruct (p_status p =? "success") eqn:Hst; simpl.
    + assert (Hlim : (amount + getTotalRefundedAmount w' P >? p_amount p)%Z
                     = true).
      { rewrite Z.gtb_ltb. apply Z.ltb_lt. lia. }
      rewrite Hlim. simpl. split; [reflexivity|].
      split; reflexivity.
    + split; [reflexivity|]. split; [reflexivity|].
      intros Hs. apply String.eqb_neq in Hst. contradiction.
Qed.

End RefundLimitClaim.

Lemma refund_limit_invariant_witness :
  let calls := [ViaService call_a;
                ViaRoute (Server.RefundRequest "m_1" "pay_1" (JNumber 600)
                            None "rfnd_b" 2 false)] in
  let w' := do_refund_calls digits_to_number digits_integer_in world_1
              calls in
  payments w' !! "pay_1" = Some pay_1
  /\ (RefundRepository.getTotalRefundedAmount w' "pay_1" <= 1000)%Z.
Proof.
  intros calls w'.
  pose proof (refund_limit_invariant digits_to_number digits_integer_in
                world_1 calls "pay_1" pay_1) as H.
  destruct H as (_ & H1 & H2 & _).
  - reflexivity.
  - change (0 <= 1000)%Z. lia.
  - repeat constructor. exists 600%Z. reflexivity.
  - split; [exact H1 | exact H2].
Defined.

(** C1, counterexample.  Two calls of [processRefund], each for 600 of
    the successful payment [pay_1] of 1000, whose statements alternate:
    both read a total of 0 before either inserts, both return their
    refund, and the pending refunds of [pay_1] sum to 1200.  And one
    request through the route of [server.js] whose amount is the string
    "5000 ": the limit test reads "5000 0", which is no number, the
    database stores 5000, and the pending refunds of [pay_1] sum to
    5000. *)
Lemma refunds_exceed_limit :
  (let out := interleave digits_to_number digits_integer_in alternating
                world_1
                [InService call_a RefundService.Lookup;
                 InService call_b RefundService.Lookup] in
   payments (fst out) !! "pay_1" = Some pay_1
   /\ (exists r1 r2,
         snd out = [InService call_a (RefundService.Returned (Ok r1));
                    InService call_b (RefundService.Returned (Ok r2))])
   /\ RefundRepository.getTotalRefundedAmount (fst out) "pay_1" = 1200%Z
   /\ ~ refund_limit_holds (fst out) "pay_1")
  /\ (let out := Server.post_refunds digits_to_number digits_integer_in
                   world_1 "m_1" "pay_1" (JString "5000 ") None "rfnd_a" 1
                   false in
      payments (fst out) !! "pay_1" = Some pay_1
      /\ status_code (snd out) = 201%Z
      /\ RefundRepository.getTotalRefundedAmount (fst out) "pay_1" = 5000%Z
      /\ ~ refund_limit_holds (fst out) "pay_1").
Proof.
  split.
  - intros out.
    assert (Htotal : RefundRepository.getTotalRefundedAmount (fst out)
                       "pay_1" = 1200%Z) by reflexivity.
    split; [reflexivity|]. split; [eexists _, _; reflexivity|].
    split; [exact Htotal|].
    intros Hinv. specialize (Hinv pay_1 eq_refl).
    rewrite Htotal in Hinv. simpl in Hinv. lia.
  - intros out.
    assert (Htotal : RefundRepository.getTotalRefundedAmount (fst out)
                       "pay_1" = 5000%Z) by reflexivity.
    split; [reflexivity|]. split; [reflexivity|].
    split; [exact Htotal|].
    intros Hinv. specialize (Hinv pay_1 eq_refl).
    rewrite Htotal in Hinv. simpl in Hinv. lia.
Qed.

(** ** Order of the checks of [processRefund] *)

Section CheckOrder.
Import RefundRepository RefundService.

(** C3 (as amended).  [processRefund] reports the first failing check in
    the order idempotency key, payment existence, payment state, limit,
    amount positivity, whatever the later checks would say.  The limit
    check precedes the positivity check, and an amount of at most 0 against
    a successful payment whose outstanding refunds equal its amount passes
    the limit check and is refused by the positivity check. *)
Theorem processRefund_check_order (w : world) (paymentId : string)
    (amount : Z) (reason : string) (key : option string) (refundId : string)
    (now : Z) (queue_down : bool) :
  let out := processRefund w paymentId amount reason key refundId now
               queue_down in
  (forall r, existingRefund w key = Some r -> out = (w, Ok r))
  /\ (existingRefund w key = None ->
      payments w !! paymentId = None ->
      out = (w, Throw (_createError "PAYMENT_NOT_FOUND" "Payment not found"
                         404)))
  /\ (forall p,
        existingRefund w key = None ->
        payments w !! paymentId = Some p ->
        (p_status p <> "success" ->
         out = (w, Throw (_createError "BAD_REQUEST_ERROR"
                            "Payment not in refundable state" 400)))
        /\ (p_status p = "success" ->
            (amount + getTotalRefundedAmount w paymentId > p_amount p)%Z ->
            out = (w, Throw (_createError "REFUND_AMOUNT_EXCEEDS_LIMIT"
                               "Refund amount exceeds available amount" 400)))
        /\ (p_status p = "success" ->
            (amount + getTotalRefundedAmount w paymentId <= p_amount p)%Z ->
            (amount <= 0)%Z ->
            out = (w, Throw (_createError "INVALID_REFUND_AMOUNT"
                               "Refund amount must be greater than 0" 400)))
        /\ (p_status p = "success" ->
            getTotalRefundedAmount w paymentId = p_amount p ->
            (amount <= 0)%Z ->
            out = (w, Throw (_createError "INVALID_REFUND_AMOUNT"
                               "Refund amount must be greater than 0" 400)))).
Proof.
  intros out.
  assert (Hpos : forall p,
    existingRefund w key = None -> payments w !! paymentId = Some p ->
    p_status p = "success" ->
    (amount + getTotalRefundedAmount w paymentId <= p_amount p)%Z ->
    (amount <= 0)%Z ->
    out = (w, Throw (_createError "INVALID_REFUND_AMOUNT"
                       "Refund amount must be greater than 0" 400))).
  { intros p Hex Hp Hst Hle Hneg. unfold out, processRefund, getPaymentById.
    rewrite Hex, Hp, Hst. simpl.
    replace (amount + getTotalRefundedAmount w paymentId >? p_amount p)%Z
      with false by (symmetry; rewrite Z.gtb_ltb; apply Z.ltb_ge; lia).
    replace (amount <=? 0)%Z with true by (symmetry; apply Z.leb_le; lia).
    reflexivity. }
  split; [|split].
  - intros r Hex. unfold out, processRefund. rewrite Hex. reflexivity.
  - intros Hex Hp. unfold out, processRefund, getPaymentById.
    rewrite Hex, Hp. reflexivity.
  - intros p Hex Hp. split; [|split; [|split]].
    + intros Hst. unfold out, processRefund, getPaymentById.
      rewrite Hex, Hp. apply String.eqb_neq in Hst. rewrite Hst. reflexivity.
    + intros Hst Hgt. unfold out, processRefund, getPaymentById.
      rewrite Hex, Hp, Hst. simpl.
      replace (amount + getTotalRefundedAmount w paymentId >? p_amount p)%Z
        with true by (symmetry; rewrite Z.gtb_ltb; apply Z.ltb_lt; lia).
      reflexivity.
    + apply Hpos; assumption.
    + intros Hst Heq Hneg. apply (Hpos p); try assumption. lia.
Qed.

Lemma processRefund_check_order_witness :
  payments world_fully_refunded !! "pay_1" = Some pay_1
  /\ processRefund world_fully_refunded "pay_1" 0 "again" None "rfnd_2" 9 false
     = (world_fully_refunded,
        Throw (_createError "INVALID_REFUND_AMOUNT"
                 "Refund amount must be greater than 0" 400)).
Proof.
  split; [reflexivity|].
  pose proof (processRefund_check_order world_fully_refunded "pay_1" 0
                "again" None "rfnd_2" 9 false) as (_ & _ & H).
  destruct (H pay_1) as (_ & _ & _ & H4); [reflexivity | reflexivity |].
  apply H4; [reflexivity | reflexivity | lia].
Defined.

(** C3, counterexample.  Against the fully refunded successful payment
    [pay_1] a request of amount 0 (and one of amount -5) is refused by the
    positivity check, not by the limit check. *)
Lemma fully_refunded_nonpositive_not_limit :
  let w := world_fully_refunded in
  let limit := Throw (_createError "REFUND_AMOUNT_EXCEEDS_LIMIT"
                        "Refund amount exceeds available amount" 400) in
  payments w !! "pay_1" = Some pay_1
  /\ p_status pay_1 = "success"
  /\ getTotalRefundedAmount w "pay_1" = p_amount pay_1
  /\ snd (processRefund w "pay_1" 0 "again" None "rfnd_2" 9 false) <> limit
  /\ snd (processRefund w "pay_1" (-5) "again" None "rfnd_2" 9 false) <> limit
  /\ snd (processRefund w "pay_1" 0 "again" None "rfnd_2" 9 false)
     = Throw (_createError "INVALID_REFUND_AMOUNT"
                "Refund amount must be greater than 0" 400).
Proof.
  repeat split; try reflexivity; vm_compute; discriminate.
Qed.

End CheckOrder.

(** ** Idempotent refunds *)

Section RefundIdempotency.
Import RefundRepository RefundService.

Lemma find_none_existsb {A} (f : A -> bool) (l : list A) :
  List.find f l = None -> existsb f l = false.
Proof.
  induction l as [|a l IH]; simpl; [reflexivity|].
  destruct (f a); [discriminate|]. exact IH.
Qed.

Lemma find_app_fresh {A} (f : A -> bool) (l : list A) (a : A) :
  List.find f l = None -> f a = true -> List.find f (l ++ [a]) = Some a.
Proof.
  induction l as [|b l IH]; simpl; intros Hnone Ha.
  - rewrite Ha. reflexivity.
  - destruct (f b); [discriminate|]. apply IH; assumption.
Qed.

Lemma filter_none {A} (f : A -> bool) (l : list A) :
  List.find f l = None -> List.filter f l = [].
Proof.
  induction l as [|a l IH]; simpl; [reflexivity|].
  destruct (f a); [discriminate|]. exact IH.
Qed.

Lemma existingRefund_truthy w k :
  k <> "" -> existingRefund w (Some k) = findRefundByIdempotencyKey w k.
Proof.
  intros Hk. unfold existingRefund, truthy.
  apply String.eqb_neq in Hk. rewrite Hk. reflexivity.
Qed.

(** A stored refund is returned before any other check is made. *)
Lemma processRefund_replay w k r paymentId amount reason refundId now
    queue_down :
  k <> "" ->
  findRefundByIdempotencyKey w k = Some r ->
  processRefund w paymentId amount reason (Some k) refundId now queue_down
  = (w, Ok r).
Proof.
  intros Hk Hfind. unfold processRefund.
  rewrite existingRefund_truthy, Hfind by exact Hk. reflexivity.
Qed.

Lemma validateRefundInput_valid paymentId amount reason :
  paymentId <> "" -> (0 < amount)%Z ->
  RefundController.all_space reason = false ->
  RefundController._validateRefundInput paymentId (JNumber amount)
    (JString reason) = Ok (amount, reason).
Proof.
  intros Hpid Hpos Hreason. unfold RefundController._validateRefundInput.
  apply String.eqb_neq in Hpid. rewrite Hpid.
  replace (amount <=? 0)%Z with false by (symmetry; apply Z.leb_gt; lia).
  rewrite Hreason. reflexivity.
Qed.

Lemma createRefund_repeat_stored w k r paymentId amount reason draws :
  k <> "" -> paymentId <> "" -> (0 < amount)%Z ->
  RefundController.all_space reason = false ->
  findRefundByIdempotencyKey w k = Some r ->
  createRefund_repeat w paymentId (JNumber amount) (JString reason) (Some k)
    draws
  = (w, repeat (Response 201
                  (RefundBody (r_id r) (r_payment_id r) (r_amount r)
                     (r_status r) (Some (r_created_at r))))
          (length draws)).
Proof.
  intros Hk Hpid Hpos Hreason Hfind.
  induction draws as [|[[refundId now] queue_down] draws IH]; [reflexivity|].
  simpl. unfold RefundController.createRefund.
  rewrite validateRefundInput_valid by assumption.
  rewrite (processRefund_replay w k r) by assumption.
  rewrite IH. reflexivity.
Qed.

(** The controller validates, calls the service and answers with what
    the service returned or threw. *)
Lemma createRefund_respond w paymentId requestedAmount reason key refundId
    now queue_down :
  RefundController.createRefund w paymentId requestedAmount reason key
    refundId now queue_down
  = match RefundController._validateRefundInput paymentId requestedAmount
            reason with
    | Throw e => (w, RefundController._handleError e)
    | Ok (amount, reason') =>
        let out := processRefund w paymentId amount reason' key refundId now
                     queue_down in
        (fst out, RefundController.respond (snd out))
    end.
Proof.
  unfold RefundController.createRefund.
  destruct (RefundController._validateRefundInput _ _ _) as [[a r]|e];
    [|reflexivity].
  destruct (processRefund _ _ _ _ _ _ _ _) as [w' [x|e]]; reflexivity.
Qed.

(** The submissions of [createRefund_repeat] as calls of the service. *)
Lemma createRefund_repeat_calls to_number integer_in w paymentId amount
    reason key draws :
  paymentId <> "" -> (0 < amount)%Z ->
  RefundController.all_space reason = false ->
  fst (createRefund_repeat w paymentId (JNumber amount) (JString reason) key
         draws)
  = do_refund_calls to_number integer_in w
      (map (fun d => ViaService (Call paymentId amount reason key d.1.1 d.1.2
                                   d.2)) draws).
Proof.
  intros Hpid Hpos Hreason. revert w.
  induction draws as [|[[refundId now] queue_down] draws IH]; intros w;
    [reflexivity|].
  cbn [createRefund_repeat map].
  change (do_refund_calls to_number integer_in w (?c :: ?cs))
    with (do_refund_calls to_number integer_in
            (do_refund_call to_number integer_in w c) cs).
  rewrite <- IH. unfold RefundController.createRefund.
  rewrite validateRefundInput_valid by assumption. simpl.
  destruct (processRefund w paymentId amount reason key refundId now
              queue_down) as [w1 [r|e]];
    destruct (createRefund_repeat _ _ _ _ _ _); reflexivity.
Qed.

(** C7 (as amended).  A valid refund request (non-empty payment id and
    reason, positive amount within the limit of a successful payment,
    unused refund id, values that fit their columns) carrying a non-empty
    idempotency key under which nothing is stored yet, submitted
    N = 1 + [length draws] times one after another, each submission
    issuing all its statements before the next issues its first: the
    ledger gains exactly one refund row and exactly one row carries the
    key.  When the queue takes the job of the first submission, the queue
    gains that one job and all N responses are 201 with the id drawn by the
    first submission; when the queue is down at the first submission, no
    job is enqueued, the first response is 500 and the other N - 1 are 201
    with that id.  Once the row is stored, [processRefund] with that key
    returns it without looking at the payment, the limit or the amount of
    the call. *)
Theorem refund_idempotent_under_key (to_number : string -> js_number)
    (integer_in : string -> option Z) (w : world) (paymentId : string)
    (p : payment) (amount : Z) (reason k refundId : string) (now : Z)
    (queue_down : bool) (draws : list (string * Z * bool)) :
  k <> "" ->
  findRefundByIdempotencyKey w k = None ->
  paymentId <> "" ->
  RefundController.all_space reason = false ->
  payments w !! paymentId = Some p ->
  p_status p = "success" ->
  (0 < amount)%Z ->
  (amount + getTotalRefundedAmount w paymentId <= p_amount p)%Z ->
  getRefundById w refundId = None ->
  Schema.varchar 64 refundId = true ->
  Schema.integer amount = true ->
  Schema.varchar 255 k = true ->
  let row := Refund refundId paymentId (p_merchant_id p) amount (Some reason)
               "pending" (Some k) now None in
  let stored := Response 201
                  (RefundBody refundId paymentId amount "pending"
                     (Some now)) in
  let submissions := (refundId, now, queue_down) :: draws in
  let out := createRefund_repeat w paymentId (JNumber amount)
               (JString reason) (Some k) submissions in
  fst out
  = fst (interleave to_number integer_in (serial (length submissions)) w
           (map (fun d => InService (Call paymentId amount reason (Some k)
                                       d.1.1 d.1.2 d.2) Lookup)
              submissions))
  /\ refunds (fst out) = refunds w ++ [row]
  /\ List.filter (has_key k) (refunds (fst out)) = [row]
  /\ (queue_down = false ->
      refund_queue (fst out) = refund_queue w ++ [refundId]
      /\ snd out = repeat stored (S (length draws)))
  /\ (queue_down = true ->
      refund_queue (fst out) = refund_queue w
      /\ exists first,
           snd out = first :: repeat stored (length draws)
           /\ status_code first = 500%Z)
  /\ (forall paymentId' amount' reason' refundId' now' queue_down',
        processRefund (fst out) paymentId' amount' reason' (Some k)
          refundId' now' queue_down'
        = (fst out, Ok row)).
Proof.
  intros Hk Hfresh Hpid Hreason Hp Hst Hpos Hle Hid Hid64 Hint Hk255 row
    stored submissions out.
  set (w1 := set_refunds (fun rs => rs ++ [row]) w).
  set (after := if queue_down then w1 else with_refund w row).
  assert (Hfirst :
    RefundController.createRefund w paymentId (JNumber amount)
      (JString reason) (Some k) refundId now queue_down
    = (after,
       if queue_down
       then RefundController._handleError (plain_error "enqueue failed")
       else stored)).
  { unfold RefundController.createRefund.
    rewrite validateRefundInput_valid by assumption.
    unfold processRefund, getPaymentById.
    rewrite existingRefund_truthy, Hfresh, Hp, Hst by exact Hk. simpl.
    replace (amount + getTotalRefundedAmount w paymentId >? p_amount p)%Z
      with false by (symmetry; rewrite Z.gtb_ltb; apply Z.ltb_ge; lia).
    replace (amount <=? 0)%Z with false by (symmetry; apply Z.leb_gt; lia).
    unfold createRefund, insert_conflict. simpl.
    rewrite Hid64, Hint, Hk255.
    rewrite (find_none_existsb _ _ Hid), (find_none_existsb _ _ Hfresh).
    rewrite Hp. simpl. unfold after. destruct queue_down; reflexivity. }
  assert (Hrefunds : refunds after = refunds w ++ [row]).
  { unfold after. destruct queue_down; reflexivity. }
  assert (Hstored : findRefundByIdempotencyKey after k = Some row).
  { unfold findRefundByIdempotencyKey. rewrite Hrefunds.
    apply find_app_fresh; [exact Hfresh|].
    unfold has_key, row. simpl. apply String.eqb_refl. }
  assert (Hout : out = (after,
                        (if queue_down
                         then RefundController._handleError
                                (plain_error "enqueue failed")
                         else stored)
                        :: repeat stored (length draws))).
  { unfold out, submissions. simpl. rewrite Hfirst.
    rewrite (createRefund_repeat_stored _ k row) by assumption.
    reflexivity. }
  split.
  { unfold out.
    rewrite (createRefund_repeat_calls to_number integer_in) by assumption.
    rewrite <- (interleave_serial to_number integer_in _ [] w).
    rewrite length_map, map_map. reflexivity. }
  rewrite Hout. simpl. split; [exact Hrefunds|]. split.
  { rewrite Hrefunds, List.filter_app, (filter_none _ _ Hfresh). simpl.
    unfold has_key, row. simpl. rewrite String.eqb_refl. reflexivity. }
  split; [|split].
  - intros ->. split; reflexivity.
  - intros ->. split; [reflexivity|]. eexists. split; reflexivity.
  - intros. apply processRefund_replay; assumption.
Qed.

Lemma refund_idempotent_under_key_witness :
  let out := createRefund_repeat world_1 "pay_1" (JNumber 600)
               (JString "damaged") (Some "key_7")
               [("rfnd_a", 1%Z, false); ("rfnd_b", 2%Z, false);
                ("rfnd_c", 3%Z, true)] in
  List.length (refunds (fst out)) = 1%nat
  /\ snd out = repeat (Response 201
                         (RefundBody "rfnd_a" "pay_1" 600 "pending" (Some 1%Z)))
                 3.
Proof.
  intros out.
  destruct (refund_idempotent_under_key digits_to_number digits_integer_in
              world_1 "pay_1" pay_1 600 "damaged" "key_7" "rfnd_a" 1 false
              [("rfnd_b", 2%Z, false); ("rfnd_c", 3%Z, true)])
    as (_ & H1 & _ & H4 & _);
    [discriminate | reflexivity | discriminate | reflexivity | reflexivity
    | reflexivity | lia | change (600 + 0 <= 1000)%Z; lia | reflexivity
    | reflexivity | reflexivity | reflexivity |].
  split; [|exact (proj2 (H4 eq_refl))].
  unfold out. rewrite H1. reflexivity.
Defined.

(** C7, counterexample.  The valid request of 300 of [pay_1] under the key
    [key_7], submitted twice so that the statements of the two submissions
    alternate: both look the key up before either has inserted, the second
    insert is refused by the unique key, and the second submission is
    answered 500, not 201.  And submitted three times in turn with the
    queue down at the first: the first submission stores the row and is
    answered 500, and no job is ever enqueued. *)
Lemma repeated_submission_answered_500 :
  RefundController._validateRefundInput "pay_1" (JNumber 300)
    (JString "damaged") = Ok (300%Z, "damaged")
  /\ (let out := interleave digits_to_number digits_integer_in alternating
                   world_1
                   [InService submission_a Lookup;
                    InService submission_b Lookup] in
      exists r e,
        snd out = [InService submission_a (Returned (Ok r));
                   InService submission_b (Returned (Throw e))]
        /\ status_code (RefundController.respond (Ok r)) = 201%Z
        /\ status_code (RefundController.respond (Throw e)) = 500%Z
        /\ length (refunds (fst out)) = 1%nat)
  /\ (let out := createRefund_repeat world_1 "pay_1" (JNumber 300)
                   (JString "damaged") (Some "key_7")
                   [("rfnd_a", 1%Z, true); ("rfnd_b", 2%Z, false);
                    ("rfnd_c", 3%Z, false)] in
      map status_code (snd out) = [500; 201; 201]%Z
      /\ length (refunds (fst out)) = 1%nat
      /\ refund_queue (fst out) = []).
Proof.
  split; [reflexivity|]. split.
  - eexists _, _. repeat split; reflexivity.
  - repeat split; reflexivity.
Qed.

End RefundIdempotency.

(** ** Settlement workers *)

Section Settlement.
Import RefundRepository.

Lemma determine_outcome_total env chance p :
  exists success,
    PaymentWorker.determine_outcome env chance (Some p) = Ok success.
Proof.
  unfold PaymentWorker.determine_outcome.
  destruct (env_is env "TEST_MODE" "true"); eexists; reflexivity.
Qed.

Lemma find_map_same_id refundId (g : refund -> refund) (rs : list refund) :
  (forall r, r_id (g r) = r_id r) ->
  List.find (has_id refundId)
    (map (fun r => if has_id refundId r then g r else r) rs)
  = g <$> List.find (has_id refundId) rs.
Proof.
  intros Hg. induction rs as [|r rs IH]; simpl; [reflexivity|].
  destruct (has_id refundId r) eqn:Hr.
  - unfold has_id in *. rewrite Hg, Hr. reflexivity.
  - rewrite Hr. exact IH.
Qed.

(** C2 (as amended).  The status write of the settlement workers is
    unconditional.  A payment job delivered for an existing payment row
    resolves to an outcome and stores it as the row's status whatever the
    status was, so the status is left as it was exactly when the job
    resolves to the status already stored; a refund job stores
    [processed] whatever the status of the refund was, so replaying it on
    a processed refund leaves the status as it was. *)
Theorem settlement_write_unconditional (w : world)
    (env : gmap string string) (chance : Q) (paymentId : string) (now : Z)
    (p : payment) :
  payments w !! paymentId = Some p ->
  (exists success,
      PaymentWorker.determine_outcome env chance (Some p) = Ok success
      /\ let status := if success then "success" else "failed" in
         let out := PaymentWorker.process w env no_faults chance paymentId
                      now in
         snd out = Ok tt
         /\ payments (fst out) !! paymentId
            = Some (set_payment_status status now p)
         /\ (p_status <$> payments (fst out) !! paymentId
             = Some (p_status p) <-> status = p_status p))
  /\ (forall refundId r,
        getRefundById w refundId = Some r ->
        let out := RefundWorker.process w refundId now in
        snd out = Ok tt
        /\ getRefundById (fst out) refundId
           = Some (RefundWorker.mark_processed now r)
        /\ (r_status r = "processed" ->
            r_status <$> getRefundById (fst out) refundId
            = Some (r_status r))).
Proof.
  intros Hp. split.
  - destruct (determine_outcome_total env chance p) as [success Hout].
    exists success. split; [exact Hout|]. simpl.
    unfold PaymentWorker.process. simpl. rewrite Hp, Hout. simpl.
    split; [reflexivity|].
    rewrite lookup_alter_eq, Hp. simpl. split; [reflexivity|].
    split; [intros [= H]; exact H | intros ->; reflexivity].
  - intros refundId r Hr.
    set (w1 := set_refunds
                 (map (fun r0 => if has_id refundId r0
                                 then RefundWorker.mark_processed now r0
                                 else r0)) w).
    assert (Hfind : getRefundById w1 refundId
                    = Some (RefundWorker.mark_processed now r)).
    { unfold getRefundById in *. unfold w1. simpl.
      rewrite find_map_same_id by reflexivity. rewrite Hr. reflexivity. }
    assert (Hproc : RefundWorker.process w refundId now
      = (set_webhook_queue
           (fun q => q ++ [(WebhookJob "refund.processed" None (Some refundId)
                              (r_merchant_id (RefundWorker.mark_processed
                                                now r)) None, 0%Z)]) w1,
         Ok tt)).
    { unfold RefundWorker.process. fold w1. rewrite Hfind. reflexivity. }
    rewrite Hproc. cbv zeta.
    change (getRefundById (fst (set_webhook_queue ?f w1, ?x)) refundId)
      with (getRefundById w1 refundId).
    rewrite Hfind. split; [reflexivity|]. split; [reflexivity|].
    intros Hst. simpl. rewrite Hst. reflexivity.
Qed.

Lemma settlement_write_unconditional_witness :
  payments world_1 !! "pay_1" = Some pay_1
  /\ payments
       (fst (PaymentWorker.process world_1 env_test_success no_faults 0
               "pay_1" 7)) !! "pay_1"
     = Some (set_payment_status "success" 7 pay_1).
Proof.
  split; [reflexivity|].
  destruct (settlement_write_unconditional world_1 env_test_success 0
              "pay_1" 7 pay_1 eq_refl) as [(success & Hs & _ & H & _) _].
  injection Hs as <-. exact H.
Defined.

(** C2, counterexample.  The successful payment [pay_1] is set to
    [failed] by a replayed job that resolves to failure (in test mode, and
    outside it with a draw above the success rate); a refund marked
    [failed] is set to [processed]. *)
Lemma settled_rows_overwritten :
  p_status <$> payments world_1 !! "pay_1" = Some "success"
  /\ p_status <$>
       payments (fst (PaymentWorker.process world_1 env_test_failure
                        no_faults 0 "pay_1" 7)) !! "pay_1"
     = Some "failed"
  /\ p_status <$>
       payments (fst (PaymentWorker.process world_1 ∅ no_faults 99
                        "pay_1" 7)) !! "pay_1"
     = Some "failed"
  /\ r_status <$> getRefundById world_failed_refund "rfnd_1" = Some "failed"
  /\ r_status <$>
       getRefundById (fst (RefundWorker.process world_failed_refund
                             "rfnd_1" 7)) "rfnd_1"
     = Some "processed".
Proof.
  repeat split; vm_compute; reflexivity.
Qed.

(** C10.  In the enhanced payment worker, when the payment row exists,
    the reads and the status write succeed and the webhook enqueue then
    throws, the job rethrows that error and the [catch] block (its own
    write succeeding) leaves the payment with status [failed] and no
    webhook job; when the outcome was success the [try] block had stored
    [success], which the [catch] block overwrites. *)
Theorem enhanced_worker_marks_failed_after_write (w : world)
    (env : gmap string string) (flt : faults) (chance : Q)
    (paymentId : string) (now : Z) (p : payment) :
  payments w !! paymentId = Some p ->
  select_fails flt = false ->
  update_fails flt = false ->
  enqueue_fails flt = true ->
  mark_failed_fails flt = false ->
  let tried := PaymentWorkerEnhanced.attempt w env flt chance paymentId now in
  let out := PaymentWorkerEnhanced.process w env flt chance paymentId now in
  snd tried = Throw (plain_error "enqueue failed")
  /\ snd out = Throw (plain_error "enqueue failed")
  /\ payments (fst out) !! paymentId
     = Some (set_payment_status "failed" now p)
  /\ webhook_queue (fst out) = webhook_queue w
  /\ (PaymentWorker.determine_outcome env chance (Some p) = Ok true ->
      p_status <$> payments (fst tried) !! paymentId = Some "success"
      /\ p_status <$> payments (fst out) !! paymentId = Some "failed"
      /\ (p_status p = "success" ->
          payments (fst out) !! paymentId <> payments w !! paymentId)).
Proof.
  intros Hp Hsel Hupd Henq Hmark tried out.
  destruct (determine_outcome_total env chance p) as [success Hout].
  assert (Htried : tried
    = (update_payment_status paymentId
         (if success then "success" else "failed") now w,
       Throw (plain_error "enqueue failed"))).
  { unfold tried, PaymentWorkerEnhanced.attempt.
    rewrite Hsel, Hp, Hout, Hupd, Henq. reflexivity. }
  assert (Hfinal : out
    = (update_payment_status paymentId "failed" now (fst tried),
       Throw (plain_error "enqueue failed"))).
  { unfold out, PaymentWorkerEnhanced.process. fold tried.
    rewrite Htried, Hmark. reflexivity. }
  assert (Hrow : payments (fst out) !! paymentId
                 = Some (set_payment_status "failed" now p)).
  { rewrite Hfinal, Htried. simpl.
    rewrite lookup_alter_eq, lookup_alter_eq, Hp. reflexivity. }
  split; [rewrite Htried; reflexivity|].
  split; [rewrite Hfinal; reflexivity|].
  split; [exact Hrow|].
  split; [rewrite Hfinal, Htried; reflexivity|].
  intros Hok. rewrite Hout in Hok. injection Hok as ->.
  split; [|split].
  - rewrite Htried. simpl. rewrite lookup_alter_eq, Hp. reflexivity.
  - rewrite Hrow. reflexivity.
  - intros Hst. rewrite Hrow, Hp. intros [= Heq].
    apply (f_equal p_status) in Heq. simpl in Heq. rewrite Hst in Heq.
    discriminate Heq.
Qed.

Lemma enhanced_worker_marks_failed_after_write_witness :
  let out := PaymentWorkerEnhanced.process world_1 env_test_success
               enqueue_fault 0 "pay_1" 7 in
  snd out = Throw (plain_error "enqueue failed")
  /\ payments (fst out) !! "pay_1" = Some (set_payment_status "failed" 7 pay_1).
Proof.
  destruct (enhanced_worker_marks_failed_after_write world_1
              env_test_success enqueue_fault 0 "pay_1" 7 pay_1
              eq_refl eq_refl eq_refl eq_refl eq_refl)
    as (_ & H2 & H3 & _).
  split; [exact H2 | exact H3].
Defined.

End Settlement.

(** ** Payment creation *)

Section PaymentCreation.
Import Server.








End PaymentCreation.

(** ** Tenants *)

Section Tenants.
Import RefundRepository.

(** C8, at the failing inputs.  Merchant [m_2], who owns nothing, refunds
    [pay_1] of merchant [m_1] through the route (the row is booked on
    [m_1]); a call of [processRefund] with the key of [m_1]'s refund gets
    that refund back whatever payment it names; and without [m_1]'s
    records both requests are refused. *)
Theorem refund_paths_ignore_tenant (to_number : string -> js_number)
    (integer_in : string -> option Z) :
  p_merchant_id <$> payments world_1 !! "pay_1" = Some (Some "m_1")
  /\ Server.post_refunds to_number integer_in world_1 "m_2" "pay_1"
       (JNumber 600) (Some "mine") "rfnd_z" 5 false
     = (with_refund world_1
          (Refund "rfnd_z" "pay_1" (Some "m_1") 600 (Some "mine") "pending"
             None 5 None),
        Response 201 (RouteRefundBody "rfnd_z" "pay_1" (JNumber 600) "pending"))
  /\ Server.post_refunds to_number integer_in world_only_m_2 "m_2" "pay_1"
       (JNumber 600) (Some "mine") "rfnd_z" 5 false
     = (world_only_m_2,
        Response 400 (ErrorBody "BAD_REQUEST_ERROR"
                        "Only successful payments can be refunded"))
  /\ RefundController.createRefund world_two_tenants "pay_2" (JNumber 1)
       (JString "mine") (Some "key_1") "rfnd_z" 5 false
     = (world_two_tenants,
        Response 201 (RefundBody "rfnd_1" "pay_1" 1000 "pending" (Some 1%Z)))
  /\ RefundController.createRefund world_only_m_2 "pay_2" (JNumber 1)
       (JString "mine") (Some "key_1") "rfnd_z" 5 false
     = (world_only_m_2,
        Response 404 (ErrorBody "PAYMENT_NOT_FOUND" "Payment not found")).
Proof.
  repeat split; vm_compute; reflexivity.
Qed.

End Tenants.

(** ** Webhook delivery *)

Section WebhookDelivery.
Import WebhookWorker.

Variable hmac_sha256_hex : string -> payload -> string.
Variable post : http_request -> http_outcome.
Variable env : gmap string string.

Local Abbreviation process := (WebhookWorker.process hmac_sha256_hex post env).
Local Abbreviation run := (WebhookWorker.run hmac_sha256_hex post env).

Hypothesis endpoint_fails : forall r, delivered (post r) = false.
Hypothesis production_schedule :
  env_is env "WEBHOOK_RETRY_INTERVALS_TEST" "true" = false.








Lemma run_empty fuel w now : webhook_queue w = [] -> run fuel w now = w.
Proof.
  intros Hq. destruct fuel; simpl; [reflexivity|]. rewrite Hq. reflexivity.
Qed.




End WebhookDelivery.

Section WebhookRetryClaim.
Import WebhookWorker.


End WebhookRetryClaim.


(** ** The webhook log *)

Section WebhookLogClaim.
Import WebhookWorker Server.

(** C9 (as amended).  The delivery worker only appends to the log of
    webhook attempts: whatever a job does (delivery, scheduled retry,
    terminal failure, drop or error) the records present stay as they are
    and at most one record is added after them.  The manual retry adds no
    record; when the merchant owns no record with the id it changes
    nothing, and otherwise it rewrites in place the records with that id
    (status [pending], attempts 0, next retry now, response code and body
    null) and leaves the others as they are. *)
Theorem webhook_log_append_or_rearm :
  (forall hmac_sha256_hex post env w job now,
     exists ls,
       webhook_logs (fst (process hmac_sha256_hex post env w job now))
       = webhook_logs w ++ ls
       /\ (length ls <= 1)%nat)
  /\ (forall JSON_parse w merchantId webhook_id now,
        let w' := fst (post_webhook_retry JSON_parse w merchantId webhook_id
                         now) in
        (List.find (fun l => is_log webhook_id l && owned_by merchantId l)
           (webhook_logs w) = None ->
         w' = w)
        /\ (is_Some (List.find
                       (fun l => is_log webhook_id l && owned_by merchantId l)
                       (webhook_logs w)) ->
            webhook_logs w'
            = map (fun l => if is_log webhook_id l then rearm now l else l)
                (webhook_logs w))
        /\ length (webhook_logs w') = length (webhook_logs w)).
Proof.
  split.
  - intros hmac_sha256_hex post env w job now.
    unfold process.
    destruct (match wj_merchantId job with
              | Some id => merchants w !! id
              | None => None
              end) as [m|];
      [|exists []; simpl; rewrite app_nil_r; split; [reflexivity | lia]].
    destruct (negb (truthy (m_webhook_url m)));
      [exists []; simpl; rewrite app_nil_r; split; [reflexivity | lia]|].
    destruct (m_webhook_secret m) as [secret|];
      [|exists []; simpl; rewrite app_nil_r; split; [reflexivity | lia]].
    cbv zeta. destruct (delivered _).
    + unfold insert_log. destruct (_ && _).
      * eexists [_]. simpl. split; [reflexivity | lia].
      * exists []. simpl. rewrite app_nil_r. split; [reflexivity | lia].
    + unfold on_failure, insert_log. destruct (_ <? 5)%Z; destruct (_ && _);
        solve [ eexists [_]; simpl; (split; [reflexivity | lia])
              | exists []; simpl; rewrite app_nil_r;
                (split; [reflexivity | lia]) ].
  - intros JSON_parse w merchantId webhook_id now. cbv zeta.
    unfold post_webhook_retry.
    destruct (List.find _ (webhook_logs w)) as [row|].
    + destruct (JSON_parse (wl_payload row)); simpl;
        (split; [discriminate|]);
        (split; [reflexivity | apply length_map]).
    + simpl. split; [reflexivity|].
      split; [intros [x Hx]; discriminate Hx | reflexivity].
Qed.

Lemma webhook_log_append_or_rearm_witness :
  webhook_logs
    (fst (post_webhook_retry (fun p => Some p) world_failed_delivery "m_2" 0
            9000))
  = webhook_logs world_failed_delivery.
Proof.
  destruct webhook_log_append_or_rearm as [_ H].
  destruct (H (fun p => Some p) world_failed_delivery "m_2" 0%nat 9000%Z)
    as (H1 & _ & _).
  rewrite H1; reflexivity.
Defined.

(** C9, counterexample.  The manual retry of the failed record 0 by its
    merchant rewrites that record in place (status, attempts and response
    code change) and the log keeps its length, whether the stored payload
    parses or not. *)
Lemma manual_retry_mutates_record :
  let before := webhook_logs world_failed_delivery in
  let parsed := webhook_logs
                  (fst (post_webhook_retry (fun p => Some p)
                          world_failed_delivery "m_1" 0 9000)) in
  let unparsed := webhook_logs
                    (fst (post_webhook_retry (fun _ => None)
                            world_failed_delivery "m_1" 0 9000)) in
  map (fun l => (wl_id l, wl_status l, wl_attempts l, wl_response_code l))
    before
  = [(0%nat, "failed", 5%Z, Some 500%Z)]
  /\ map (fun l => (wl_id l, wl_status l, wl_attempts l, wl_response_code l))
       parsed
     = [(0%nat, "pending", 0%Z, None)]
  /\ unparsed = parsed
  /\ parsed <> before.
Proof.
  repeat split; vm_compute; discriminate.
Qed.

End WebhookLogClaim.

(** * Further properties of the refund paths *)

Section RefundRequests.
Import RefundRepository RefundService RefundController.

Lemma validateRefundInput_ok paymentId requestedAmount reason n s :
  _validateRefundInput paymentId requestedAmount reason = Ok (n, s) ->
  paymentId <> "" /\ requestedAmount = JNumber n /\ (0 < n)%Z
  /\ reason = JString s /\ all_space s = false.
Proof.
  unfold _validateRefundInput.
  destruct (paymentId =? "") eqn:Hid; [discriminate|].
  apply String.eqb_neq in Hid.
  destruct requestedAmount as [| |m| |]; try discriminate.
  destruct (m <=? 0)%Z eqn:Hm; [discriminate|].
  apply Z.leb_gt in Hm.
  destruct reason as [| | |t|]; try discriminate.
  destruct (all_space t) eqn:Ht; [discriminate|].
  intros [= -> ->]. repeat split; assumption.
Qed.

Lemma validateRefundInput_throw paymentId requestedAmount reason e :
  _validateRefundInput paymentId requestedAmount reason = Throw e ->
  e_statusCode e = Some 400%Z
  /\ (e_code e = Some "INVALID_PAYMENT_ID"
      \/ e_code e = Some "MISSING_AMOUNT"
      \/ e_code e = Some "INVALID_AMOUNT"
      \/ e_code e = Some "MISSING_REASON").
Proof.
  unfold _validateRefundInput.
  destruct (paymentId =? ""); [intros [= <-]; simpl; auto|].
  destruct requestedAmount as [| |m| |];
    try (intros [= <-]; simpl; auto 6; fail).
  destruct (m <=? 0)%Z; [intros [= <-]; simpl; auto 6|].
  destruct reason as [| | |t|]; try (intros [= <-]; simpl; auto 6; fail).
  destruct (all_space t); [intros [= <-]; simpl; auto 6 | discriminate].
Qed.

(** X1.  [_validateRefundInput] accepts exactly the requests with a
    non-empty payment id, a number above 0 as amount and a string that is
    not blank as reason, and hands on that amount and reason; whatever it
    refuses is refused with status 400 and one of its four codes. *)
Theorem validateRefundInput_accepts_exactly (paymentId : string)
    (requestedAmount reason : js_value) :
  (forall n s,
     _validateRefundInput paymentId requestedAmount reason = Ok (n, s)
     <-> paymentId <> "" /\ requestedAmount = JNumber n /\ (0 < n)%Z
         /\ reason = JString s /\ all_space s = false)
  /\ (forall e,
        _validateRefundInput paymentId requestedAmount reason = Throw e ->
        e_statusCode e = Some 400%Z
        /\ (e_code e = Some "INVALID_PAYMENT_ID"
            \/ e_code e = Some "MISSING_AMOUNT"
            \/ e_code e = Some "INVALID_AMOUNT"
            \/ e_code e = Some "MISSING_REASON")).
Proof.
  split.
  - intros n s. split; [apply validateRefundInput_ok|].
    intros (Hid & -> & Hn & -> & Hs). unfold _validateRefundInput.
    apply String.eqb_neq in Hid. rewrite Hid.
    replace (n <=? 0)%Z with false by (symmetry; apply Z.leb_gt; lia).
    rewrite Hs. reflexivity.
  - intros e. apply validateRefundInput_throw.
Qed.

Lemma validateRefundInput_accepts_exactly_witness :
  _validateRefundInput "pay_1" (JNumber 600) (JString "damaged")
  = Ok (600%Z, "damaged")
  /\ forall n s,
       _validateRefundInput "pay_1" (JNumber 600)
         (JString (String (Ascii.ascii_of_nat 160) " "))
       <> Ok (n, s).
Proof.
  split.
  - apply (proj1 (validateRefundInput_accepts_exactly "pay_1" (JNumber 600)
                    (JString "damaged"))).
    repeat split; try reflexivity; try discriminate.
  - intros n s H.
    apply (proj1 (validateRefundInput_accepts_exactly "pay_1" (JNumber 600)
                    (JString (String (Ascii.ascii_of_nat 160) " ")))) in H.
    destruct H as (_ & _ & _ & [= <-] & Hblank). discriminate Hblank.
Defined.

(** Whatever [processRefund] throws leaves the world as it was, unless it
    is the queue that throws: then the row that was inserted stays. *)
Lemma processRefund_throw_unchanged w paymentId amount reason key refundId
    now queue_down e :
  snd (processRefund w paymentId amount reason key refundId now queue_down)
  = Throw e ->
  let w' := fst (processRefund w paymentId amount reason key refundId now
                   queue_down) in
  w' = w
  \/ (queue_down = true
      /\ e = plain_error "enqueue failed"
      /\ exists p,
           payments w !! paymentId = Some p
           /\ w' = set_refunds
                     (fun rs => rs ++ [Refund refundId paymentId
                                         (p_merchant_id p) amount
                                         (Some reason) "pending" key now
                                         None]) w).
Proof.
  unfold processRefund, getPaymentById.
  destruct (existingRefund w key); [discriminate|].
  destruct (payments w !! paymentId) as [p|]; [|left; reflexivity].
  destruct (negb _); [left; reflexivity|].
  destruct (_ >? _)%Z; [left; reflexivity|].
  destruct (_ <=? _)%Z; [left; reflexivity|].
  unfold RefundRepository.createRefund.
  destruct (insert_conflict _ _ _ _ || _ || _); [left; reflexivity|].
  destruct queue_down; [|discriminate].
  intros [= <-]. right. split; [reflexivity|]. split; [reflexivity|].
  exists p. split; reflexivity.
Qed.

(** The errors [processRefund] throws, by code and status. *)
Lemma processRefund_errors w paymentId amount reason key refundId now
    queue_down e :
  snd (processRefund w paymentId amount reason key refundId now queue_down)
  = Throw e ->
  (e_code e = Some "PAYMENT_NOT_FOUND" /\ e_statusCode e = Some 404%Z)
  \/ (e_code e = Some "BAD_REQUEST_ERROR" /\ e_statusCode e = Some 400%Z)
  \/ (e_code e = Some "REFUND_AMOUNT_EXCEEDS_LIMIT"
      /\ e_statusCode e = Some 400%Z)
  \/ (e_code e = Some "INVALID_REFUND_AMOUNT"
      /\ e_statusCode e = Some 400%Z /\ (amount <= 0)%Z)
  \/ (e_code e = None /\ e_statusCode e = None
      /\ (e_message e
          = "Failed to create refund: the insert violates a constraint"
          \/ queue_down = true)).
Proof.
  unfold processRefund.
  destruct (existingRefund w key); [discriminate|].
  destruct (getPaymentById w paymentId) as [p|];
    [|intros [= <-]; simpl; auto].
  destruct (negb _); [intros [= <-]; simpl; auto|].
  destruct (_ >? _)%Z; [intros [= <-]; simpl; auto 6|].
  destruct (amount <=? 0)%Z eqn:Hneg.
  { apply Z.leb_le in Hneg. intros [= <-]. simpl. auto 8. }
  unfold RefundRepository.createRefund.
  destruct (insert_conflict _ _ _ _ || _ || _);
    [intros [= <-]; simpl; auto 8|].
  destruct queue_down; [intros [= <-]; simpl; auto 8 | discriminate].
Qed.

(** X2.  Through the controller the positivity error of the service is
    never seen: an amount of at most 0 is refused by the controller's own
    validation with [INVALID_AMOUNT] before the service runs, whatever the
    payment and the stored refunds are, and no response carries the code
    [INVALID_REFUND_AMOUNT]. *)
Theorem controller_shadows_positivity_check (w : world) (paymentId : string)
    (requestedAmount reason : js_value) (key : option string)
    (refundId : string) (now : Z) (queue_down : bool) :
  (forall n,
     paymentId <> "" -> requestedAmount = JNumber n -> (n <= 0)%Z ->
     createRefund w paymentId requestedAmount reason key refundId now
       queue_down
     = (w, Response 400
             (ErrorBody "INVALID_AMOUNT"
                "Refund amount must be a positive number")))
  /\ (forall description,
        json (snd (createRefund w paymentId requestedAmount reason key
                     refundId now queue_down))
        <> ErrorBody "INVALID_REFUND_AMOUNT" description).
Proof.
  split.
  - intros n Hid -> Hn. unfold createRefund, _validateRefundInput.
    apply String.eqb_neq in Hid. rewrite Hid.
    replace (n <=? 0)%Z with true by (symmetry; apply Z.leb_le; lia).
    reflexivity.
  - intros description. unfold createRefund.
    destruct (_validateRefundInput paymentId requestedAmount reason)
      as [[n s]|e] eqn:Hv.
    + apply validateRefundInput_ok in Hv.
      destruct Hv as (_ & _ & Hn & _ & _).
      destruct (processRefund w paymentId n s key refundId now queue_down)
        as [w' [r|e]] eqn:Hp; simpl; [discriminate|].
      pose proof (processRefund_errors w paymentId n s key refundId now
                    queue_down e) as Herr.
      rewrite Hp in Herr. specialize (Herr eq_refl).
      unfold _handleError.
      destruct Herr as [[Hc _]|[[Hc _]|[[Hc _]|[(_ & _ & Hneg)|[Hc _]]]]];
        try lia; rewrite Hc; simpl; discriminate.
    + apply validateRefundInput_throw in Hv.
      destruct Hv as [_ [Hc|[Hc|[Hc|Hc]]]];
        unfold _handleError; rewrite Hc; simpl; discriminate.
Qed.

Lemma controller_shadows_positivity_check_witness :
  createRefund world_fully_refunded "pay_1" (JNumber 0) (JString "again")
    None "rfnd_2" 9 false
  = (world_fully_refunded,
     Response 400
       (ErrorBody "INVALID_AMOUNT" "Refund amount must be a positive number")).
Proof.
  apply (proj1 (controller_shadows_positivity_check world_fully_refunded
                  "pay_1" (JNumber 0) (JString "again") None "rfnd_2" 9
                  false)
           0%Z); [discriminate | reflexivity | lia].
Defined.

(** X3.  The controller answers 201, 400, 404 or 500.  An answer other
    than 201 leaves ledger and queues exactly as they were, with one
    exception: when the queue is down, a request that passed every check
    is answered 500 with its pending row stored and no job enqueued. *)
Theorem controller_failure_leaves_at_most_a_row (w : world)
    (paymentId : string) (requestedAmount reason : js_value)
    (key : option string) (refundId : string) (now : Z)
    (queue_down : bool) :
  let out := createRefund w paymentId requestedAmount reason key refundId
               now queue_down in
  (status_code (snd out) = 201 \/ status_code (snd out) = 400
   \/ status_code (snd out) = 404 \/ status_code (snd out) = 500)%Z
  /\ (queue_down = false -> status_code (snd out) <> 201%Z -> fst out = w)
  /\ (status_code (snd out) <> 201%Z ->
      fst out = w
      \/ (queue_down = true
          /\ status_code (snd out) = 500%Z
          /\ exists p n s,
               payments w !! paymentId = Some p
               /\ requestedAmount = JNumber n
               /\ reason = JString s
               /\ fst out
                  = set_refunds
                      (fun rs => rs ++ [Refund refundId paymentId
                                          (p_merchant_id p) n (Some s)
                                          "pending" key now None]) w)).
Proof.
  unfold createRefund.
  destruct (_validateRefundInput paymentId requestedAmount reason)
    as [[n s]|e] eqn:Hv.
  - apply validateRefundInput_ok in Hv.
    destruct Hv as (_ & -> & _ & -> & _).
    destruct (processRefund w paymentId n s key refundId now queue_down)
      as [w' [r|e]] eqn:Hp; simpl.
    + split; [auto|]. split; intros; contradiction.
    + pose proof (processRefund_throw_unchanged w paymentId n s key refundId
                    now queue_down e) as Hw.
      pose proof (processRefund_errors w paymentId n s key refundId now
                    queue_down e) as Herr.
      rewrite Hp in Hw, Herr. simpl in Hw.
      specialize (Hw eq_refl). specialize (Herr eq_refl).
      assert (Hstatus :
        e_statusCode e = Some 404%Z \/ e_statusCode e = Some 400%Z
        \/ e_statusCode e = None).
      { destruct Herr
          as [[_ Hs]|[[_ Hs]|[[_ Hs]|[(_ & Hs & _)|(_ & Hs & _)]]]]; auto. }
      split; [|split].
      * unfold _handleError.
        destruct Hstatus as [Hs|[Hs|Hs]]; rewrite Hs; simpl; auto.
      * intros Hq _. destruct Hw as [Hw|[Hq' _]]; [exact Hw|].
        rewrite Hq in Hq'. discriminate.
      * intros _.
        destruct Hw as [Hw|(Hq & -> & p & Hp' & Hw)]; [left; exact Hw|].
        right. split; [exact Hq|]. split; [reflexivity|].
        exists p, n, s. auto.
  - apply validateRefundInput_throw in Hv.
    destruct Hv as [Hs _]. simpl. split; [|split].
    + unfold _handleError. rewrite Hs. simpl. auto.
    + reflexivity.
    + left. reflexivity.
Qed.

Lemma controller_failure_leaves_at_most_a_row_witness :
  fst (createRefund world_fully_refunded "pay_1" (JNumber 1)
         (JString "again") None "rfnd_2" 9 false)
  = world_fully_refunded.
Proof.
  apply (proj1 (proj2 (controller_failure_leaves_at_most_a_row
                         world_fully_refunded "pay_1" (JNumber 1)
                         (JString "again") None "rfnd_2" 9 false)));
    [reflexivity | vm_compute; discriminate].
Defined.

End RefundRequests.

Section RefundLedger.
Import RefundRepository RefundService.

Lemma existsb_false_find {A} (f : A -> bool) (l : list A) :
  existsb f l = false -> List.find f l = None.
Proof.
  induction l as [|a l IH]; simpl; [reflexivity|].
  destruct (f a); [discriminate|]. exact IH.
Qed.

Lemma find_app_miss {A} (f : A -> bool) (l : list A) (a : A) :
  f a = false -> List.find f (l ++ [a]) = List.find f l.
Proof.
  intros Ha. induction l as [|b l IH]; simpl.
  - rewrite Ha. reflexivity.
  - destruct (f b); [reflexivity | exact IH].
Qed.

Lemma insert_conflict_false w id amount key :
  insert_conflict w id amount key = false ->
  Schema.varchar 64 id = true
  /\ Schema.integer amount = true
  /\ Schema.varchar_null 255 key = true
  /\ getRefundById w id = None
  /\ (forall k, key = Some k -> findRefundByIdempotencyKey w k = None).
Proof.
  unfold insert_conflict. intros H.
  apply orb_false_elim in H as [H Hkey].
  apply orb_false_elim in H as [H Hid].
  apply orb_false_elim in H as [H Hk255].
  apply orb_false_elim in H as [Hid64 Hint].
  apply negb_false_iff in Hid64, Hint, Hk255.
  repeat split; try assumption.
  - apply existsb_false_find, Hid.
  - intros k ->. apply existsb_false_find, Hkey.
Qed.

(** X4.  When no refund is stored under the key, [processRefund] returns
    a refund exactly when the payment exists and is successful, the amount
    is above 0 and within what is left of the payment, the insert meets no
    constraint and the queue takes the job; the refund created is pending,
    carries the requested amount and the payment's merchant, and its id is
    the id of the one job enqueued. *)
Theorem processRefund_creates_exactly (w : world) (paymentId : string)
    (amount : Z) (reason : string) (key : option string) (refundId : string)
    (now : Z) (queue_down : bool) :
  existingRefund w key = None ->
  let out := processRefund w paymentId amount reason key refundId now
               queue_down in
  ((exists row, snd out = Ok row)
   <-> exists p,
         payments w !! paymentId = Some p
         /\ p_status p = "success"
         /\ (0 < amount)%Z
         /\ (amount + getTotalRefundedAmount w paymentId <= p_amount p)%Z
         /\ insert_conflict w refundId amount key = false
         /\ queue_down = false)
  /\ (forall row,
        snd out = Ok row ->
        exists p,
          payments w !! paymentId = Some p
          /\ row = Refund refundId paymentId (p_merchant_id p) amount
                     (Some reason) "pending" key now None
          /\ refunds (fst out) = refunds w ++ [row]
          /\ refund_queue (fst out) = refund_queue w ++ [refundId]).
Proof.
  intros Hex out. unfold out, processRefund, getPaymentById.
  rewrite Hex.
  destruct (payments w !! paymentId) as [p|] eqn:Hp.
  2:{ split; [split|]; [intros [row H]; discriminate H
                       | intros (q & H & _); discriminate H
                       | intros row H; discriminate H]. }
  destruct (p_status p =? "success") eqn:Hst; simpl.
  2:{ apply String.eqb_neq in Hst.
      split; [split|]; [intros [row H]; discriminate H
                       | intros (q & [= <-] & Hs & _); contradiction
                       | intros row H; discriminate H]. }
  apply String.eqb_eq in Hst.
  destruct (_ >? _)%Z eqn:Hlim.
  { rewrite Z.gtb_ltb in Hlim. apply Z.ltb_lt in Hlim.
    split; [split|]; [intros [row H]; discriminate H
                     | intros (q & [= <-] & _ & _ & Hle & _); lia
                     | intros row H; discriminate H]. }
  rewrite Z.gtb_ltb in Hlim. apply Z.ltb_ge in Hlim.
  destruct (amount <=? 0)%Z eqn:Hpos.
  { apply Z.leb_le in Hpos.
    split; [split|]; [intros [row H]; discriminate H
                     | intros (q & _ & _ & Hgt & _); lia
                     | intros row H; discriminate H]. }
  apply Z.leb_gt in Hpos.
  unfold RefundRepository.createRefund. rewrite Hp.
  destruct (insert_conflict w refundId amount key) eqn:Hc; simpl.
  { split; [split|]; [intros [row H]; discriminate H
                     | intros (q & _ & _ & _ & _ & H & _); discriminate H
                     | intros row H; discriminate H]. }
  destruct queue_down; simpl.
  { split; [split|]; [intros [row H]; discriminate H
                     | intros (q & _ & _ & _ & _ & _ & H); discriminate H
                     | intros row H; discriminate H]. }
  split; [split|].
  - intros _. exists p. repeat split; assumption.
  - intros _. eexists. reflexivity.
  - intros row [= <-]. exists p. repeat split; reflexivity.
Qed.

Lemma processRefund_creates_exactly_witness :
  exists row,
    snd (processRefund world_1 "pay_1" 600 "damaged" None "rfnd_a" 1 false)
    = Ok row.
Proof.
  apply (proj1 (processRefund_creates_exactly world_1 "pay_1" 600 "damaged"
                  None "rfnd_a" 1 false eq_refl)).
  exists pay_1. repeat split; try reflexivity.
  change (600 + 0 <= 1000)%Z. lia.
Defined.

(** X5.  When a request that passes every check of the service meets a
    constraint of the [refunds] table (the generated id or the key is
    taken, or a value does not fit its column), the controller answers 500
    with the code [INTERNAL_SERVER_ERROR] and the repository's message as
    description, and neither a row nor a job is created. *)
Theorem refund_insert_conflict_is_internal_error (w : world)
    (paymentId : string) (p : payment) (amount : Z) (reason : string)
    (key : option string) (refundId : string) (now : Z)
    (queue_down : bool) :
  paymentId <> "" ->
  RefundController.all_space reason = false ->
  existingRefund w key = None ->
  payments w !! paymentId = Some p ->
  p_status p = "success" ->
  (0 < amount)%Z ->
  (amount + getTotalRefundedAmount w paymentId <= p_amount p)%Z ->
  insert_conflict w refundId amount key = true ->
  exists description,
    RefundController.createRefund w paymentId (JNumber amount)
      (JString reason) key refundId now queue_down
    = (w, Response 500 (ErrorBody "INTERNAL_SERVER_ERROR" description))
    /\ String.prefix "Failed to create refund: " description = true.
Proof.
  intros Hid Hreason Hex Hp Hst Hpos Hle Hc.
  unfold RefundController.createRefund,
    RefundController._validateRefundInput.
  apply String.eqb_neq in Hid. rewrite Hid.
  replace (amount <=? 0)%Z with false by (symmetry; apply Z.leb_gt; lia).
  rewrite Hreason. unfold processRefund, getPaymentById.
  rewrite Hex, Hp, Hst. simpl.
  replace (amount + getTotalRefundedAmount w paymentId >? p_amount p)%Z
    with false by (symmetry; rewrite Z.gtb_ltb; apply Z.ltb_ge; lia).
  replace (amount <=? 0)%Z with false by (symmetry; apply Z.leb_gt; lia).
  unfold RefundRepository.createRefund. rewrite Hc.
  eexists. split; reflexivity.
Qed.

Lemma refund_insert_conflict_is_internal_error_witness :
  exists description,
    RefundController.createRefund world_failed_refund "pay_1" (JNumber 100)
      (JString "again") None "rfnd_1" 9 false
    = (world_failed_refund,
       Response 500 (ErrorBody "INTERNAL_SERVER_ERROR" description))
    /\ String.prefix "Failed to create refund: " description = true.
Proof.
  apply (refund_insert_conflict_is_internal_error world_failed_refund
           "pay_1" pay_1 100 "again" None "rfnd_1" 9 false);
    try reflexivity; try discriminate; lia.
Defined.

(** When the queue is down, a request that passes every check of the
    service leaves a pending refund behind: [processRefund] throws after
    the insert, the row is stored and counts against the payment, and no
    job is enqueued for it. *)
Lemma queue_failure_leaves_unprocessed_refund (w : world)
    (paymentId : string) (p : payment) (amount : Z) (reason : string)
    (key : option string) (refundId : string) (now : Z) :
  existingRefund w key = None ->
  payments w !! paymentId = Some p ->
  p_status p = "success" ->
  (0 < amount)%Z ->
  (amount + getTotalRefundedAmount w paymentId <= p_amount p)%Z ->
  insert_conflict w refundId amount key = false ->
  let out := processRefund w paymentId amount reason key refundId now true in
  (exists e, snd out = Throw e /\ e_code e = None /\ e_statusCode e = None)
  /\ refunds (fst out)
     = refunds w ++ [Refund refundId paymentId (p_merchant_id p) amount
                       (Some reason) "pending" key now None]
  /\ refund_queue (fst out) = refund_queue w
  /\ getTotalRefundedAmount (fst out) paymentId
     = (getTotalRefundedAmount w paymentId + amount)%Z
  /\ status_code (RefundController.respond (snd out)) = 500%Z.
Proof.
  intros Hex Hp Hst Hpos Hle Hc out.
  assert (Hout : out
    = (set_refunds
         (fun rs => rs ++ [Refund refundId paymentId (p_merchant_id p) amount
                             (Some reason) "pending" key now None]) w,
       Throw (plain_error "enqueue failed"))).
  { unfold out, processRefund, getPaymentById.
    rewrite Hex, Hp, Hst. simpl.
    replace (amount + getTotalRefundedAmount w paymentId >? p_amount p)%Z
      with false by (symmetry; rewrite Z.gtb_ltb; apply Z.ltb_ge; lia).
    replace (amount <=? 0)%Z with false by (symmetry; apply Z.leb_gt; lia).
    unfold RefundRepository.createRefund. rewrite Hc, Hp. reflexivity. }
  rewrite Hout. simpl.
  split; [eexists; repeat split; reflexivity|].
  split; [reflexivity|]. split; [reflexivity|]. split; [|reflexivity].
  unfold getTotalRefundedAmount. simpl. rewrite sum_amounts_app. simpl.
  unfold refund_of. simpl. rewrite String.eqb_refl. simpl. lia.
Qed.

(** X6.  A refund stored by [createRefund] is the one [getRefundById]
    finds under its id and [findRefundByIdempotencyKey] finds under its
    key; the lookups of other ids are as before, and the payment's total
    grows by the amount exactly when the status stored is pending or
    processed. *)
Theorem createRefund_then_lookup (w w' : world) (id paymentId : string)
    (merchantId : option string) (amount : Z) (reason : option string)
    (status : string) (key : option string) (now : Z) (row : refund) :
  RefundRepository.createRefund w id paymentId merchantId amount reason
    status key now = (w', Ok row) ->
  getRefundById w' id = Some row
  /\ (forall k, key = Some k -> findRefundByIdempotencyKey w' k = Some row)
  /\ (forall id', id' <> id -> getRefundById w' id' = getRefundById w id')
  /\ getTotalRefundedAmount w' paymentId
     = (getTotalRefundedAmount w paymentId
        + if counts_against_limit row then amount else 0)%Z.
Proof.
  unfold RefundRepository.createRefund.
  destruct (insert_conflict w id amount key) eqn:Hc; [discriminate|].
  destruct (_ || _ || _); [discriminate|].
  intros [= <- <-].
  apply insert_conflict_false in Hc as (_ & _ & _ & Hfresh & Hkey).
  unfold getRefundById, findRefundByIdempotencyKey in *. simpl.
  split; [|split; [|split]].
  - apply find_app_fresh; [exact Hfresh|].
    unfold has_id. simpl. apply String.eqb_refl.
  - intros k ->. apply find_app_fresh; [apply Hkey; reflexivity|].
    unfold has_key. simpl. apply String.eqb_refl.
  - intros id' Hne. apply find_app_miss.
    unfold has_id. simpl. apply String.eqb_neq. congruence.
  - unfold getTotalRefundedAmount. simpl. rewrite sum_amounts_app. simpl.
    unfold refund_of. simpl. rewrite String.eqb_refl. simpl. lia.
Qed.

Lemma createRefund_then_lookup_witness :
  getRefundById
    (fst (RefundRepository.createRefund world_1 "rfnd_a" "pay_1"
            (Some "m_1") 600 None "pending" (Some "key_7") 1))
    "rfnd_a"
  = Some (Refund "rfnd_a" "pay_1" (Some "m_1") 600 None "pending"
            (Some "key_7") 1 None).
Proof.
  apply (createRefund_then_lookup world_1 _ "rfnd_a" "pay_1" (Some "m_1")
           600 None "pending" (Some "key_7") 1 _ eq_refl).
Defined.

End RefundLedger.

Section RefundStatusUpdate.
Import RefundRepository.

Lemma map_no_id id (g : refund -> refund) rs :
  List.find (has_id id) rs = None ->
  map (fun r => if has_id id r then g r else r) rs = rs.
Proof.
  induction rs as [|a rs IH]; simpl; [reflexivity|].
  destruct (has_id id a); [discriminate|].
  intros H. rewrite (IH H). reflexivity.
Qed.

Lemma not_in_ids_find id rs :
  ~ In id (map r_id rs) -> List.find (has_id id) rs = None.
Proof.
  induction rs as [|a rs IH]; simpl; [reflexivity|].
  intros Hn. destruct (has_id id a) eqn:Ha.
  - apply String.eqb_eq in Ha. tauto.
  - apply IH. tauto.
Qed.

(** X7.  In a table with unique ids, [updateRefundStatus] with a status
    that fits its column returns the stored refund with the new status,
    and the total of every payment moves by the refund's amount exactly as
    the refund enters or leaves the statuses pending and processed; so
    marking a counted refund [failed] frees its amount again.  With a
    status longer than the 20 characters of the column the call throws
    and the table is as it was. *)
Theorem updateRefundStatus_moves_amount (w : world) (refundId status : string)
    (r : refund) :
  NoDup (map r_id (refunds w)) ->
  getRefundById w refundId = Some r ->
  let out := updateRefundStatus w refundId status in
  (Schema.varchar 20 status = true ->
   snd out = Ok (Some (set_status status r))
   /\ getRefundById (fst out) refundId = Some (set_status status r)
   /\ payments (fst out) = payments w
   /\ (forall P,
         getTotalRefundedAmount (fst out) P
         = (getTotalRefundedAmount w P
            - (if refund_of P r then r_amount r else 0)
            + (if refund_of P (set_status status r) then r_amount r
               else 0))%Z))
  /\ (Schema.varchar 20 status = false ->
      fst out = w
      /\ exists e,
           snd out = Throw e
           /\ String.prefix "Failed to update refund status: " (e_message e)
              = true).
Proof.
  intros Hnodup Hfind out. unfold out, updateRefundStatus. split.
  2:{ intros ->. simpl. split; [reflexivity|].
      eexists. split; reflexivity. }
  intros ->. simpl.
  assert (Hlook : List.find (has_id refundId)
                    (map (fun r0 => if has_id refundId r0
                                    then set_status status r0 else r0)
                       (refunds w))
                  = Some (set_status status r)).
  { unfold getRefundById in Hfind.
    rewrite find_map_same_id by reflexivity. rewrite Hfind. reflexivity. }
  unfold getRefundById. simpl.
  split; [rewrite Hlook; reflexivity|]. split; [exact Hlook|].
  split; [reflexivity|].
  intros P. unfold getTotalRefundedAmount, getRefundById in *. simpl.
  clear Hlook out.
  induction (refunds w) as [|a rs IH]; [discriminate|].
  simpl in Hfind, Hnodup. simpl.
  apply NoDup_cons in Hnodup as [Hnotin Hnodup].
  destruct (has_id refundId a) eqn:Ha.
  - injection Hfind as ->.
    apply String.eqb_eq in Ha.
    rewrite map_no_id.
    + destruct (refund_of P r), (refund_of P (set_status status r));
        simpl; lia.
    + apply not_in_ids_find. rewrite <- Ha, <- list_elem_of_In.
      exact Hnotin.
  - rewrite (IH Hnodup Hfind). lia.
Qed.

Lemma updateRefundStatus_moves_amount_witness :
  getTotalRefundedAmount world_fully_refunded "pay_1" = 1000%Z
  /\ getTotalRefundedAmount
       (fst (updateRefundStatus world_fully_refunded "rfnd_1" "failed"))
       "pay_1"
     = 0%Z
  /\ fst (updateRefundStatus world_fully_refunded "rfnd_1"
            "cancelled_by_the_merchant")
     = world_fully_refunded.
Proof.
  split; [reflexivity|].
  destruct (updateRefundStatus_moves_amount world_fully_refunded "rfnd_1"
              "failed"
              (Refund "rfnd_1" "pay_1" (Some "m_1") 1000 (Some "returned")
                 "pending" (Some "key_1") 1 None))
    as [H _].
  - repeat constructor. intros Hin. inversion Hin.
  - reflexivity.
  - destruct (H eq_refl) as (_ & _ & _ & Htotal).
    split; [rewrite Htotal; reflexivity|].
    destruct (updateRefundStatus_moves_amount world_fully_refunded "rfnd_1"
                "cancelled_by_the_merchant"
                (Refund "rfnd_1" "pay_1" (Some "m_1") 1000 (Some "returned")
                   "pending" (Some "key_1") 1 None))
      as [_ H'].
    + repeat constructor. intros Hin. inversion Hin.
    + reflexivity.
    + exact (proj1 (H' eq_refl)).
Defined.

End RefundStatusUpdate.

Section RefundRouteProperties.
Import RefundRepository RefundService.

Variable to_number : string -> js_number.
Variable integer_in : string -> option Z.

Local Abbreviation post_refunds := (Server.post_refunds to_number integer_in).

(** X8.  The refund route of [server.js] has no positivity check: against
    a successful payment whose refunds are within its amount it books a
    refund of a negative amount, and after it accepts a refund that
    exceeds by as much what was left of the payment; the total then equals
    the payment's amount. *)
Theorem route_negative_refund_raises_balance (w : world)
    (merchantId1 merchantId2 paymentId : string) (p : payment) (n : Z)
    (reason1 reason2 : option string) (refundId1 refundId2 : string)
    (now1 now2 : Z) :
  payments w !! paymentId = Some p ->
  p_status p = "success" ->
  (getTotalRefundedAmount w paymentId <= p_amount p)%Z ->
  (0 < n)%Z ->
  Schema.integer (- n) = true ->
  Schema.integer (p_amount p - getTotalRefundedAmount w paymentId + n) = true ->
  Schema.varchar 64 refundId1 = true ->
  Schema.varchar 64 refundId2 = true ->
  getRefundById w refundId1 = None ->
  getRefundById w refundId2 = None ->
  refundId1 <> refundId2 ->
  let left := (p_amount p - getTotalRefundedAmount w paymentId)%Z in
  let first := post_refunds w merchantId1 paymentId (JNumber (- n)) reason1
                 refundId1 now1 false in
  let second := post_refunds (fst first) merchantId2 paymentId
                  (JNumber (left + n)) reason2 refundId2 now2 false in
  status_code (snd first) = 201%Z
  /\ status_code (snd second) = 201%Z
  /\ refunds (fst second)
     = refunds w
       ++ [Refund refundId1 paymentId (p_merchant_id p) (- n) reason1
             "pending" None now1 None;
           Refund refundId2 paymentId (p_merchant_id p) (left + n) reason2
             "pending" None now2 None]
  /\ getTotalRefundedAmount (fst second) paymentId = p_amount p.
Proof.
  intros Hp Hst Hle Hn Hint1 Hint2 Hv1 Hv2 Hf1 Hf2 Hne left first second.
  set (row1 := Refund refundId1 paymentId (p_merchant_id p) (- n) reason1
                 "pending" None now1 None).
  assert (Hfirst : first
    = (with_refund w row1,
       Response 201
         (RouteRefundBody refundId1 paymentId (JNumber (- n)) "pending"))).
  { unfold first, Server.post_refunds. rewrite Hp, Hst. simpl.
    replace (- n + getTotalRefundedAmount w paymentId >? p_amount p)%Z
      with false by (symmetry; rewrite Z.gtb_ltb; apply Z.ltb_ge; lia).
    unfold insert_conflict. rewrite Hv1, Hint1. simpl.
    rewrite (find_none_existsb _ _ Hf1). reflexivity. }
  assert (Htotal : getTotalRefundedAmount (with_refund w row1) paymentId
                   = (getTotalRefundedAmount w paymentId - n)%Z).
  { rewrite total_with_refund. unfold refund_of, row1. simpl.
    rewrite String.eqb_refl. simpl. lia. }
  set (row2 := Refund refundId2 paymentId (p_merchant_id p) (left + n)
                 reason2 "pending" None now2 None).
  assert (Hsecond : second
    = (with_refund (with_refund w row1) row2,
       Response 201
         (RouteRefundBody refundId2 paymentId (JNumber (left + n))
            "pending"))).
  { unfold second. rewrite Hfirst. simpl. unfold Server.post_refunds.
    change (payments (with_refund w row1)) with (payments w).
    rewrite Hp, Hst. simpl. rewrite Htotal.
    replace (left + n + (getTotalRefundedAmount w paymentId - n)
             >? p_amount p)%Z
      with false
      by (symmetry; rewrite Z.gtb_ltb; apply Z.ltb_ge; unfold left; lia).
    unfold insert_conflict. rewrite Hv2. unfold left. rewrite Hint2. simpl.
    rewrite existsb_app, (find_none_existsb _ _ Hf2). simpl.
    unfold has_id at 1. simpl.
    replace (refundId1 =? refundId2) with false
      by (symmetry; apply String.eqb_neq; exact Hne).
    reflexivity. }
  rewrite Hfirst, Hsecond. simpl.
  split; [reflexivity|]. split; [reflexivity|]. split.
  - rewrite <- app_assoc. reflexivity.
  - change (getTotalRefundedAmount (with_refund (with_refund w row1) row2)
              paymentId = p_amount p).
    rewrite total_with_refund, Htotal. unfold refund_of, row2. simpl.
    rewrite String.eqb_refl. simpl. unfold left. lia.
Qed.

(** X9.  For an amount above 0 and no idempotency key the refactored
    service and the route of [server.js] do the same to ledger and queue,
    whether the queue is up or down, and the one returns a refund exactly
    when the other answers 201. *)
Theorem service_agrees_with_route (w : world) (merchantId paymentId : string)
    (amount : Z) (reason refundId : string) (now : Z) (queue_down : bool) :
  (0 < amount)%Z ->
  let viaService := processRefund w paymentId amount reason None refundId
                      now queue_down in
  let viaRoute := post_refunds w merchantId paymentId (JNumber amount)
                    (Some reason) refundId now queue_down in
  fst viaService = fst viaRoute
  /\ ((exists row, snd viaService = Ok row)
      <-> status_code (snd viaRoute) = 201%Z).
Proof.
  intros Hpos. unfold processRefund, Server.post_refunds, getPaymentById.
  simpl.
  destruct (payments w !! paymentId) as [p|] eqn:Hp.
  2:{ simpl. split; [reflexivity|].
      split; [intros [row H]; discriminate H | discriminate]. }
  destruct (negb (p_status p =? "success")); simpl.
  { split; [reflexivity|].
    split; [intros [row H]; discriminate H | discriminate]. }
  destruct (_ >? _)%Z; simpl.
  { split; [reflexivity|].
    split; [intros [row H]; discriminate H | discriminate]. }
  replace (amount <=? 0)%Z with false by (symmetry; apply Z.leb_gt; lia).
  unfold RefundRepository.createRefund. rewrite Hp.
  destruct (insert_conflict w refundId amount None); simpl.
  { split; [reflexivity|].
    split; [intros [row H]; discriminate H | discriminate]. }
  destruct queue_down; simpl.
  { split; [reflexivity|].
    split; [intros [row H]; discriminate H | discriminate]. }
  split; [reflexivity|]. split; [reflexivity | eexists; reflexivity].
Qed.

(** X30.  The route reads a string amount as text.  The limit test
    concatenates the string with the digits of the total and compares the
    result as a number, and the database reads the string itself: a string
    that the database takes for the integer [n] while the concatenation is
    no number passes the test whatever [n] is, and the row is stored with
    amount [n]; a string whose concatenation spells a number above the
    payment's amount is refused although the amount it spells may be
    within the limit. *)
Theorem route_reads_string_amount_as_text (w : world)
    (merchantId paymentId : string) (p : payment) (s : string)
    (reason : option string) (refundId : string) (now : Z) :
  payments w !! paymentId = Some p ->
  p_status p = "success" ->
  let total := getTotalRefundedAmount w paymentId in
  let out := post_refunds w merchantId paymentId (JString s) reason refundId
               now false in
  (forall n,
     to_number (s +:+ pretty total) = NaN ->
     integer_in s = Some n ->
     insert_conflict w refundId n None = false ->
     snd out = Response 201
                 (RouteRefundBody refundId paymentId (JString s) "pending")
     /\ refunds (fst out)
        = refunds w ++ [Refund refundId paymentId (p_merchant_id p) n reason
                          "pending" None now None]
     /\ getTotalRefundedAmount (fst out) paymentId = (total + n)%Z)
  /\ (forall q,
        to_number (s +:+ pretty total) = Finite q ->
        (inject_Z (p_amount p) < q)%Q ->
        out = (w, Response 400
                    (ErrorBody "BAD_REQUEST_ERROR"
                       "Refund amount exceeds available balance"))).
Proof.
  intros Hp Hst total out. unfold out, Server.post_refunds.
  rewrite Hp, Hst. simpl. fold total. split.
  - intros n Hnan Hin Hc. unfold Server.exceeds. rewrite Hnan, Hin, Hc.
    simpl. split; [reflexivity|]. split; [reflexivity|].
    unfold getTotalRefundedAmount. simpl. rewrite sum_amounts_app. simpl.
    unfold refund_of. simpl. rewrite String.eqb_refl. simpl.
    fold (getTotalRefundedAmount w paymentId). fold total. lia.
  - intros q Hq Hlt. rewrite Hq. unfold Server.exceeds.
    replace (Qle_bool q (inject_Z (p_amount p))) with false; [reflexivity|].
    symmetry. apply not_true_is_false. intros Hle.
    apply Qle_bool_iff in Hle. apply Qlt_not_le in Hlt. contradiction.
Qed.

End RefundRouteProperties.

Lemma route_negative_refund_raises_balance_witness :
  let first := Server.post_refunds digits_to_number digits_integer_in world_1
                 "m_1" "pay_1" (JNumber (-500)) None "rfnd_a" 1 false in
  let second := Server.post_refunds digits_to_number digits_integer_in
                  (fst first) "m_1" "pay_1" (JNumber 1500) None "rfnd_b" 2
                  false in
  status_code (snd first) = 201%Z /\ status_code (snd second) = 201%Z.
Proof.
  destruct (route_negative_refund_raises_balance digits_to_number
              digits_integer_in world_1 "m_1" "m_1" "pay_1" pay_1 500 None
              None "rfnd_a" "rfnd_b" 1 2)
    as (H1 & H2 & _); try reflexivity; try discriminate; try lia.
  split; [exact H1 | exact H2].
Defined.

Lemma service_agrees_with_route_witness :
  fst (RefundService.processRefund world_1 "pay_1" 600 "damaged" None
         "rfnd_a" 1 false)
  = fst (Server.post_refunds digits_to_number digits_integer_in world_1 "m_2"
           "pay_1" (JNumber 600) (Some "damaged") "rfnd_a" 1 false).
Proof.
  apply (service_agrees_with_route digits_to_number digits_integer_in world_1
           "m_2" "pay_1" 600 "damaged" "rfnd_a" 1 false).
  lia.
Defined.

Lemma route_reads_string_amount_as_text_witness :
  RefundRepository.getTotalRefundedAmount
    (fst (Server.post_refunds digits_to_number digits_integer_in world_1
            "m_1" "pay_1" (JString "5000 ") None "rfnd_a" 1 false))
    "pay_1"
  = 5000%Z
  /\ Server.post_refunds digits_to_number digits_integer_in world_1 "m_1"
       "pay_1" (JString "600") None "rfnd_a" 1 false
     = (world_1,
        Response 400
          (ErrorBody "BAD_REQUEST_ERROR"
             "Refund amount exceeds available balance")).
Proof.
  split.
  - destruct (route_reads_string_amount_as_text digits_to_number
                digits_integer_in world_1 "m_1" "pay_1" pay_1 "5000 " None
                "rfnd_a" 1 eq_refl eq_refl) as [H _].
    destruct (H 5000%Z eq_refl eq_refl eq_refl) as (_ & _ & Htotal).
    exact Htotal.
  - destruct (route_reads_string_amount_as_text digits_to_number
                digits_integer_in world_1 "m_1" "pay_1" pay_1 "600" None
                "rfnd_a" 1 eq_refl eq_refl) as [_ H].
    apply (H (inject_Z 6000)); [reflexivity|].
    unfold Qlt. simpl. lia.
Defined.




(** * Refund calls in flight together *)

Section OverlappingCalls.
Import RefundRepository.

Variable to_number : string -> js_number.
Variable integer_in : string -> option Z.

(** X10.  The refund limit is not kept by calls that overlap.  Two calls
    of [processRefund] without idempotency key against the same successful
    payment, each with a positive amount that fits into what is left of
    the payment, whose statements alternate: both read the total before
    either inserts, both insert and return their refund, and the total
    grows by the sum of the two amounts, beyond the payment's amount when
    the two together do not fit. *)
Theorem overlapping_refunds_both_pass (w : world) (paymentId : string)
    (p : payment) (a1 a2 : Z) (reason1 reason2 id1 id2 : string)
    (now1 now2 : Z) :
  payments w !! paymentId = Some p ->
  p_status p = "success" ->
  (0 < a1)%Z -> (0 < a2)%Z ->
  (a1 + getTotalRefundedAmount w paymentId <= p_amount p)%Z ->
  (a2 + getTotalRefundedAmount w paymentId <= p_amount p)%Z ->
  Schema.integer a1 = true -> Schema.integer a2 = true ->
  Schema.varchar 64 id1 = true -> Schema.varchar 64 id2 = true ->
  getRefundById w id1 = None -> getRefundById w id2 = None ->
  id1 <> id2 ->
  let c1 := RefundService.Call paymentId a1 reason1 None id1 now1 false in
  let c2 := RefundService.Call paymentId a2 reason2 None id2 now2 false in
  let row1 := Refund id1 paymentId (p_merchant_id p) a1 (Some reason1)
                "pending" None now1 None in
  let row2 := Refund id2 paymentId (p_merchant_id p) a2 (Some reason2)
                "pending" None now2 None in
  let out := interleave to_number integer_in alternating w
               [InService c1 RefundService.Lookup;
                InService c2 RefundService.Lookup] in
  snd out = [InService c1 (RefundService.Returned (Ok row1));
             InService c2 (RefundService.Returned (Ok row2))]
  /\ refunds (fst out) = refunds w ++ [row1; row2]
  /\ refund_queue (fst out) = refund_queue w ++ [id1; id2]
  /\ getTotalRefundedAmount (fst out) paymentId
     = (getTotalRefundedAmount w paymentId + a1 + a2)%Z
  /\ ((a1 + a2 + getTotalRefundedAmount w paymentId > p_amount p)%Z ->
      ~ refund_limit_holds (fst out) paymentId).
Proof.
  intros Hp Hst Hpos1 Hpos2 Hle1 Hle2 Hint1 Hint2 Hv1 Hv2 Hf1 Hf2 Hne
    c1 c2 row1 row2 out.
  assert (Hout : out
    = (with_refund (with_refund w row1) row2,
       [InService c1 (RefundService.Returned (Ok row1));
        InService c2 (RefundService.Returned (Ok row2))])).
  { assert (Hg1 : (a1 + getTotalRefundedAmount w paymentId >? p_amount p)%Z
                  = false)
      by (rewrite Z.gtb_ltb; apply Z.ltb_ge; lia).
    assert (Hg2 : (a2 + getTotalRefundedAmount w paymentId >? p_amount p)%Z
                  = false)
      by (rewrite Z.gtb_ltb; apply Z.ltb_ge; lia).
    assert (Hn1 : (a1 <=? 0)%Z = false) by (apply Z.leb_gt; lia).
    assert (Hn2 : (a2 <=? 0)%Z = false) by (apply Z.leb_gt; lia).
    assert (Hc1 : insert_conflict w id1 a1 None = false).
    { unfold insert_conflict.
      rewrite Hv1, Hint1, (find_none_existsb _ _ Hf1). reflexivity. }
    assert (Hc2 : insert_conflict (set_refunds (fun rs => rs ++ [row1]) w)
                    id2 a2 None = false).
    { unfold insert_conflict. simpl.
      rewrite Hv2, Hint2, existsb_app, (find_none_existsb _ _ Hf2). simpl.
      unfold has_id. simpl.
      replace (id1 =? id2) with false
        by (symmetry; apply String.eqb_neq; exact Hne).
      reflexivity. }
    unfold row1 in Hc2. unfold out, alternating, c1, c2.
    repeat (progress
              (cbn -[insert_conflict getTotalRefundedAmount Z.gtb Z.leb];
               unfold getPaymentById, createRefund;
               rewrite ?Hp, ?Hst, ?Hg1, ?Hn1, ?Hg2, ?Hn2, ?Hc1, ?Hc2)).
    reflexivity. }
  assert (Htotal :
    getTotalRefundedAmount (with_refund (with_refund w row1) row2) paymentId
    = (getTotalRefundedAmount w paymentId + a1 + a2)%Z).
  { rewrite !total_with_refund. unfold refund_of, row1, row2. simpl.
    rewrite String.eqb_refl. simpl. lia. }
  rewrite Hout. simpl. split; [reflexivity|].
  split; [rewrite <- app_assoc; reflexivity|].
  split; [rewrite <- app_assoc; reflexivity|].
  split; [exact Htotal|].
  intros Hgt Hinv. specialize (Hinv p Hp).
  change (getTotalRefundedAmount (with_refund (with_refund w row1) row2)
            paymentId <= p_amount p)%Z in Hinv.
  rewrite Htotal in Hinv. lia.
Qed.

End OverlappingCalls.

Lemma overlapping_refunds_both_pass_witness :
  RefundRepository.getTotalRefundedAmount
    (fst (interleave digits_to_number digits_integer_in alternating world_1
            [InService call_a RefundService.Lookup;
             InService call_b RefundService.Lookup]))
    "pay_1"
  = 1200%Z.
Proof.
  destruct (overlapping_refunds_both_pass digits_to_number digits_integer_in
              world_1 "pay_1" pay_1 600 600 "damaged" "damaged" "rfnd_a"
              "rfnd_b" 1 2)
    as (_ & _ & _ & Htotal & _);
    [reflexivity | reflexivity | lia | lia
    | change (600 + 0 <= 1000)%Z; lia | change (600 + 0 <= 1000)%Z; lia
    | reflexivity | reflexivity | reflexivity | reflexivity | reflexivity
    | reflexivity | discriminate | exact Htotal].
Defined.

(** * Further properties of the settlement workers *)

Section PaymentJobs.

Lemma update_missing_payment w paymentId status now :
  payments w !! paymentId = None ->
  update_payment_status paymentId status now w = w.
Proof.
  intros Hnone. unfold update_payment_status, set_payments.
  rewrite alter_id by (intros x Hx; congruence).
  destruct w. reflexivity.
Qed.

(** X11.  A payment job for an id that is not in the ledger throws and
    leaves the world as it was, in either worker and whatever else fails:
    no row is written and no webhook is enqueued. *)
Theorem payment_job_for_missing_payment (w : world)
    (env : gmap string string) (flt : faults) (chance : Q)
    (paymentId : string) (now : Z) :
  payments w !! paymentId = None ->
  (exists e,
      PaymentWorker.process w env flt chance paymentId now = (w, Throw e))
  /\ (exists e,
        PaymentWorkerEnhanced.process w env flt chance paymentId now
        = (w, Throw e)).
Proof.
  intros Hnone. split.
  - unfold PaymentWorker.process.
    destruct (select_fails flt); [eexists; reflexivity|].
    rewrite Hnone.
    destruct (PaymentWorker.determine_outcome env chance None)
      as [success|e]; [|eexists; reflexivity].
    destruct (update_fails flt); [eexists; reflexivity|].
    rewrite update_missing_payment by exact Hnone. eexists; reflexivity.
  - unfold PaymentWorkerEnhanced.process, PaymentWorkerEnhanced.attempt.
    destruct (select_fails flt); [|rewrite Hnone];
      (destruct (mark_failed_fails flt);
       [|rewrite update_missing_payment by exact Hnone]);
      eexists; reflexivity.
Qed.

Lemma payment_job_for_missing_payment_witness :
  exists e,
    PaymentWorker.process world_1 env_test_success no_faults 0 "pay_9" 7
    = (world_1, Throw e).
Proof.
  apply (payment_job_for_missing_payment world_1 env_test_success no_faults
           0 "pay_9" 7).
  reflexivity.
Defined.

(** X12.  A payment job that meets no failure settles the payment it names
    and nothing else: the row keeps merchant, order, amount and method and
    gets status [success] or [failed], every other payment and every refund
    is as before, and exactly one webhook job is enqueued, for that payment
    and its merchant, whose event is [payment.] followed by the status
    stored. *)
Theorem payment_job_settles_one_payment (w : world)
    (env : gmap string string) (chance : Q) (paymentId : string) (now : Z)
    (p : payment) :
  payments w !! paymentId = Some p ->
  let out := PaymentWorker.process w env no_faults chance paymentId now in
  exists status,
    (status = "success" \/ status = "failed")
    /\ snd out = Ok tt
    /\ payments (fst out) !! paymentId
       = Some (Payment (p_merchant_id p) (p_order_id p) (p_amount p) status
                 (p_method p) now)
    /\ (forall other, other <> paymentId ->
                      payments (fst out) !! other = payments w !! other)
    /\ refunds (fst out) = refunds w
    /\ webhook_queue (fst out)
       = webhook_queue w
         ++ [(WebhookJob (String.append "payment." status) (Some paymentId)
                None (p_merchant_id p) None, 0%Z)].
Proof.
  intros Hp out.
  destruct (determine_outcome_total env chance p) as [success Hout].
  exists (if success then "success" else "failed").
  split; [destruct success; auto|].
  unfold out, PaymentWorker.process. simpl. rewrite Hp, Hout. simpl.
  split; [reflexivity|]. split; [|split; [|split; reflexivity]].
  - rewrite lookup_alter_eq, Hp. reflexivity.
  - intros other Hne. apply lookup_alter_ne. congruence.
Qed.

Lemma payment_job_settles_one_payment_witness :
  exists status,
    webhook_queue
      (fst (PaymentWorker.process world_1 env_test_failure no_faults 0
              "pay_1" 7))
    = [(WebhookJob (String.append "payment." status) (Some "pay_1") None
          (Some "m_1") None, 0%Z)].
Proof.
  destruct (payment_job_settles_one_payment world_1 env_test_failure 0
              "pay_1" 7 pay_1 eq_refl)
    as (status & _ & _ & _ & _ & _ & H).
  exists status. exact H.
Defined.

(** X13.  On a payment that is in the ledger and with nothing failing, the
    enhanced worker does exactly what the plain worker does. *)
Theorem enhanced_worker_agrees_without_faults (w : world)
    (env : gmap string string) (chance : Q) (paymentId : string) (now : Z)
    (p : payment) :
  payments w !! paymentId = Some p ->
  PaymentWorkerEnhanced.process w env no_faults chance paymentId now
  = PaymentWorker.process w env no_faults chance paymentId now.
Proof.
  intros Hp.
  destruct (determine_outcome_total env chance p) as [success Hout].
  unfold PaymentWorkerEnhanced.process, PaymentWorkerEnhanced.attempt,
    PaymentWorker.process.
  simpl. rewrite Hp, Hout. reflexivity.
Qed.

Lemma enhanced_worker_agrees_without_faults_witness :
  PaymentWorkerEnhanced.process world_1 env_test_failure no_faults 0
    "pay_1" 7
  = PaymentWorker.process world_1 env_test_failure no_faults 0 "pay_1" 7.
Proof.
  apply (enhanced_worker_agrees_without_faults world_1 env_test_failure 0
           "pay_1" 7 pay_1).
  reflexivity.
Defined.

(** X14.  The enhanced worker throws exactly when the read, the status
    write or the enqueue fails; whenever it throws and the write of its
    [catch] block goes through, the payment is left with status [failed]
    and no webhook job is enqueued, also when the failure came before any
    outcome was determined. *)
Theorem enhanced_worker_failure_marks_failed (w : world)
    (env : gmap string string) (flt : faults) (chance : Q)
    (paymentId : string) (now : Z) (p : payment) :
  payments w !! paymentId = Some p ->
  let out := PaymentWorkerEnhanced.process w env flt chance paymentId now in
  ((exists e, snd out = Throw e)
   <-> select_fails flt || update_fails flt || enqueue_fails flt = true)
  /\ (forall e,
        snd out = Throw e ->
        mark_failed_fails flt = false ->
        payments (fst out) !! paymentId
        = Some (set_payment_status "failed" now p)
        /\ webhook_queue (fst out) = webhook_queue w).
Proof.
  intros Hp out.
  destruct (determine_outcome_total env chance p) as [success Hout].
  unfold out, PaymentWorkerEnhanced.process, PaymentWorkerEnhanced.attempt.
  rewrite Hp, Hout.
  destruct (select_fails flt); simpl.
  { split; [split; [reflexivity | eexists; reflexivity]|].
    intros e _ ->. simpl. rewrite lookup_alter_eq, Hp. split; reflexivity. }
  destruct (update_fails flt); simpl.
  { split; [split; [reflexivity | eexists; reflexivity]|].
    intros e _ ->. simpl. rewrite lookup_alter_eq, Hp. split; reflexivity. }
  destruct (enqueue_fails flt); simpl.
  { split; [split; [reflexivity | eexists; reflexivity]|].
    intros e _ ->. simpl.
    rewrite lookup_alter_eq, lookup_alter_eq, Hp. split; reflexivity. }
  split; [split; [intros [e H]; discriminate H | discriminate]|].
  intros e H. discriminate H.
Qed.

Lemma enhanced_worker_failure_marks_failed_witness :
  payments
    (fst (PaymentWorkerEnhanced.process world_1 ∅
            (Faults true false false false) 0 "pay_1" 7)) !! "pay_1"
  = Some (set_payment_status "failed" 7 pay_1).
Proof.
  destruct (enhanced_worker_failure_marks_failed world_1 ∅
              (Faults true false false false) 0 "pay_1" 7 pay_1 eq_refl)
    as [_ H].
  apply (H (plain_error "select failed")); reflexivity.
Defined.

End PaymentJobs.

Section RefundJobs.
Import RefundRepository.

(** X15.  A refund job for an id that is not in the ledger throws and
    leaves the world as it was. *)
Theorem refund_job_for_missing_refund (w : world) (refundId : string)
    (now : Z) :
  getRefundById w refundId = None ->
  exists e, RefundWorker.process w refundId now = (w, Throw e).
Proof.
  intros Hnone. unfold RefundWorker.process.
  assert (Hw : set_refunds
                 (map (fun r => if has_id refundId r
                                then RefundWorker.mark_processed now r
                                else r)) w = w).
  { destruct w. unfold set_refunds. simpl in *.
    unfold getRefundById in Hnone. simpl in Hnone.
    rewrite map_no_id by exact Hnone. reflexivity. }
  rewrite Hw, Hnone. eexists. reflexivity.
Qed.

Lemma refund_job_for_missing_refund_witness :
  exists e, RefundWorker.process world_1 "rfnd_9" 7 = (world_1, Throw e).
Proof.
  apply (refund_job_for_missing_refund world_1 "rfnd_9" 7). reflexivity.
Defined.

(** X16.  The webhook of a processed refund carries no data.  A refund job
    for a stored refund whose merchant receives webhooks enqueues one job
    [refund.processed] without a payment id, and the request the delivery
    worker then sends for it has the event name and the time but neither
    the refund nor the payment in its body. *)
Theorem refund_webhook_carries_no_data (w : world) (refundId : string)
    (now : Z) (r : refund) (mid : string) (m : merchant) (url secret : string) :
  getRefundById w refundId = Some r ->
  r_merchant_id r = Some mid ->
  merchants w !! mid = Some m ->
  m_webhook_url m = Some url ->
  url <> "" ->
  m_webhook_secret m = Some secret ->
  let job := WebhookJob "refund.processed" None (Some refundId) (Some mid)
               None in
  let w1 := fst (RefundWorker.process w refundId now) in
  webhook_queue w1 = webhook_queue w ++ [(job, 0%Z)]
  /\ (forall hmac_sha256_hex post env now',
        let body := Payload "refund.processed" (now' / 1000) None in
        http_sent
          (fst (WebhookWorker.process hmac_sha256_hex post env w1 job now'))
        = http_sent w1 ++ [HttpRequest url body (hmac_sha256_hex secret body)]).
Proof.
  intros Hr Hmid Hm Hurl Hne Hsecret job w1.
  set (w0 := set_refunds
               (map (fun r0 => if has_id refundId r0
                               then RefundWorker.mark_processed now r0
                               else r0)) w).
  assert (Hfind : getRefundById w0 refundId
                  = Some (RefundWorker.mark_processed now r)).
  { unfold getRefundById in *. unfold w0. simpl.
    rewrite find_map_same_id by reflexivity. rewrite Hr. reflexivity. }
  assert (Hw1 : w1 = set_webhook_queue (fun q => q ++ [(job, 0%Z)]) w0).
  { unfold w1, RefundWorker.process. fold w0. rewrite Hfind. simpl.
    rewrite Hmid. reflexivity. }
  rewrite Hw1. split; [reflexivity|].
  intros hmac_sha256_hex post env now' body.
  unfold WebhookWorker.process. simpl. rewrite Hm, Hurl, Hsecret.
  unfold truthy. apply String.eqb_neq in Hne. rewrite Hne. simpl.
  destruct (WebhookWorker.delivered _).
  - unfold WebhookWorker.insert_log. destruct (_ && _); reflexivity.
  - unfold WebhookWorker.on_failure, WebhookWorker.insert_log.
    destruct (_ <? 5)%Z; destruct (_ && _); reflexivity.
Qed.

End RefundJobs.

Lemma refund_webhook_carries_no_data_witness :
  webhook_queue (fst (RefundWorker.process world_fully_refunded "rfnd_1" 7))
  = [(WebhookJob "refund.processed" None (Some "rfnd_1") (Some "m_1") None,
      0%Z)].
Proof.
  apply (proj1 (refund_webhook_carries_no_data world_fully_refunded "rfnd_1"
                  7
                  (Refund "rfnd_1" "pay_1" (Some "m_1") 1000 (Some "returned")
                     "pending" (Some "key_1") 1 None)
                  "m_1" shop "https://shop.example/hook" "whsec_1"
                  eq_refl eq_refl eq_refl eq_refl ltac:(discriminate)
                  eq_refl)).
Defined.

(** * Further properties of the webhook delivery *)

Section Deliveries.
Import WebhookWorker.

Variable hmac_sha256_hex : string -> payload -> string.
Variable post : http_request -> http_outcome.
Variable env : gmap string string.

Local Abbreviation process_job :=
  (WebhookWorker.process hmac_sha256_hex post env).
Local Abbreviation run_queue := (WebhookWorker.run hmac_sha256_hex post env).

(** What one job does: it sends nothing and logs nothing, or it sends one
    request to the URL of the job's merchant, signed with that merchant's
    secret, and logs at most one record; it enqueues nothing, or the job
    for the next attempt when the attempt was below the fifth. *)
Lemma process_job_effect w job now :
  let w' := fst (process_job w job now) in
  merchants w' = merchants w
  /\ ((http_sent w' = http_sent w /\ webhook_logs w' = webhook_logs w
       /\ webhook_queue w' = webhook_queue w)
      \/ exists r ls,
           http_sent w' = http_sent w ++ [r]
           /\ webhook_logs w' = webhook_logs w ++ ls
           /\ (length ls <= 1)%nat
           /\ (exists mid m secret,
                 wj_merchantId job = Some mid
                 /\ merchants w !! mid = Some m
                 /\ m_webhook_url m = Some (hr_url r)
                 /\ m_webhook_secret m = Some secret
                 /\ hr_signature r = hmac_sha256_hex secret (hr_payload r)
                 /\ pl_event (hr_payload r) = wj_event job)
           /\ ((delivered (post r) = true
                /\ webhook_queue w' = webhook_queue w
                /\ Forall (fun l => wl_status l = "success"
                                    /\ wl_payload l = hr_payload r) ls)
               \/ (delivered (post r) = false
                   /\ Forall (fun l => (wl_status l = "pending"
                                        \/ wl_status l = "failed")
                                       /\ wl_payload l = hr_payload r) ls
                   /\ (webhook_queue w' = webhook_queue w
                       \/ exists d,
                            (default 1 (wj_attempt job) < 5)%Z
                            /\ webhook_queue w'
                               = webhook_queue w
                                 ++ [(next_job job
                                        (default 1 (wj_attempt job)), d)])))).
Proof.
  unfold WebhookWorker.process.
  destruct (wj_merchantId job) as [mid|] eqn:Hmid; [|simpl; auto].
  destruct (merchants w !! mid) as [m|] eqn:Hm; [|simpl; auto].
  destruct (m_webhook_url m) as [url|] eqn:Hurl; [|simpl; auto].
  destruct (negb (truthy (Some url))); [simpl; auto|].
  destruct (m_webhook_secret m) as [secret|] eqn:Hsecret; [|simpl; auto].
  cbv zeta. simpl (default "" (Some url)).
  match goal with
  | |- context [post ?r] => set (request := r)
  end.
  assert (Hsigned : exists mid0 m0 secret0,
            Some mid = Some mid0 /\ merchants w !! mid0 = Some m0
            /\ m_webhook_url m0 = Some (hr_url request)
            /\ m_webhook_secret m0 = Some secret0
            /\ hr_signature request
               = hmac_sha256_hex secret0 (hr_payload request)
            /\ pl_event (hr_payload request) = wj_event job).
  { exists mid, m, secret. repeat split; assumption. }
  assert (Hone : forall l : webhook_log, (length [l] <= 1)%nat)
    by (intros l; simpl; lia).
  destruct (delivered (post request)) eqn:Hdel.
  - unfold insert_log. destruct (_ && _); simpl;
      (split; [reflexivity|]); right.
    + eexists request, [_].
      split; [reflexivity|]. split; [reflexivity|].
      split; [apply Hone|]. split; [exact Hsigned|].
      left. split; [exact Hdel|]. split; [reflexivity|].
      constructor; [split; reflexivity | constructor].
    + exists request, [].
      split; [reflexivity|]. split; [symmetry; apply app_nil_r|].
      split; [simpl; lia|]. split; [exact Hsigned|].
      left. split; [exact Hdel|]. split; [reflexivity | constructor].
  - unfold on_failure, insert_log.
    destruct (_ <? 5)%Z eqn:Hlt; destruct (_ && _); simpl;
      (split; [reflexivity|]); right.
    + eexists request, [_].
      split; [reflexivity|]. split; [reflexivity|].
      split; [apply Hone|]. split; [exact Hsigned|].
      right. split; [exact Hdel|]. split.
      * constructor; [split; [left|]; reflexivity | constructor].
      * right. eexists. apply Z.ltb_lt in Hlt. split; [exact Hlt|].
        reflexivity.
    + exists request, [].
      split; [reflexivity|]. split; [symmetry; apply app_nil_r|].
      split; [simpl; lia|]. split; [exact Hsigned|].
      right. split; [exact Hdel|]. split; [constructor|].
      right. eexists. apply Z.ltb_lt in Hlt. split; [exact Hlt|].
      reflexivity.
    + eexists request, [_].
      split; [reflexivity|]. split; [reflexivity|].
      split; [apply Hone|]. split; [exact Hsigned|].
      right. split; [exact Hdel|]. split.
      * constructor; [split; [right|]; reflexivity | constructor].
      * left. reflexivity.
    + exists request, [].
      split; [reflexivity|]. split; [symmetry; apply app_nil_r|].
      split; [simpl; lia|]. split; [exact Hsigned|].
      right. split; [exact Hdel|]. split; [constructor|].
      left. reflexivity.
Qed.

Lemma logged_outcome_more rs rs' l :
  logged_outcome post rs l -> logged_outcome post (rs' ++ rs) l.
Proof.
  intros (r & Hin & H). exists r. split; [|exact H].
  apply List.in_or_app. right. exact Hin.
Qed.

Lemma run_queue_effect fuel w now :
  let w' := run_queue fuel w now in
  merchants w' = merchants w
  /\ exists rs ls,
       http_sent w' = http_sent w ++ rs
       /\ webhook_logs w' = webhook_logs w ++ ls
       /\ Forall (signed_for hmac_sha256_hex w) rs
       /\ Forall (logged_outcome post rs) ls.
Proof.
  revert w now. induction fuel as [|fuel IH]; intros w now; simpl.
  { split; [reflexivity|]. exists [], []. rewrite !app_nil_r.
    repeat split; constructor. }
  destruct (webhook_queue w) as [|[job delay] rest] eqn:Hq.
  { split; [reflexivity|]. exists [], []. rewrite !app_nil_r.
    repeat split; constructor. }
  set (w0 := set_webhook_queue (fun _ => rest) w).
  destruct (process_job_effect w0 job (now + delay)%Z) as [Hm Heff].
  set (w1 := fst (process_job w0 job (now + delay)%Z)) in *.
  destruct (IH w1 (now + delay)%Z) as (Hm' & rs & ls & Hs & Hl & Hsig & Hout).
  assert (Hsig' : Forall (signed_for hmac_sha256_hex w) rs).
  { eapply Forall_impl; [exact Hsig|].
    intros r (mid & m & secret & H1 & H2).
    exists mid, m, secret. rewrite Hm in H1. auto. }
  split; [rewrite Hm', Hm; reflexivity|].
  destruct Heff as [(Hs0 & Hl0 & _)
                   |(r & ls0 & Hs0 & Hl0 & _ & Hsigned & Hcase)].
  - exists rs, ls. rewrite Hs, Hl, Hs0, Hl0. auto.
  - exists (r :: rs), (ls0 ++ ls).
    rewrite Hs, Hl, Hs0, Hl0. rewrite <- !app_assoc.
    split; [reflexivity|]. split; [reflexivity|]. split.
    + constructor; [|exact Hsig'].
      destruct Hsigned as (mid & m & secret & _ & H1 & H2 & H3 & H4 & _).
      exists mid, m, secret. auto.
    + apply Forall_app. split.
      * destruct Hcase as [(Hdel & _ & Hall)|(Hdel & Hall & _)];
          (eapply Forall_impl; [exact Hall|]);
          intros l [Hst Hpl]; exists r;
          (split; [left; reflexivity|]);
          (split; [symmetry; exact Hpl|]);
          rewrite Hdel; exact Hst.
      * eapply Forall_impl; [exact Hout|].
        intros l Hl'. apply (logged_outcome_more rs [r] l Hl').
Qed.

(** X17.  A job whose merchant is unknown or has no webhook URL is dropped
    without a trace: nothing is sent, logged or re-enqueued and the job
    succeeds; a job whose merchant has a URL but no secret throws before
    anything is sent or logged. *)
Theorem undeliverable_job_leaves_no_trace (w : world) (job : webhook_job)
    (now : Z) :
  let target := match wj_merchantId job with
                | Some id => merchants w !! id
                | None => None
                end in
  (target = None
   \/ (exists m, target = Some m /\ truthy (m_webhook_url m) = false) ->
   process_job w job now = (w, Ok tt))
  /\ (forall m,
        target = Some m ->
        truthy (m_webhook_url m) = true ->
        m_webhook_secret m = None ->
        exists e, process_job w job now = (w, Throw e)).
Proof.
  unfold WebhookWorker.process. cbv zeta.
  destruct (match wj_merchantId job with
            | Some id => merchants w !! id
            | None => None
            end) as [m0|].
  - split.
    + intros [H|(m & [= <-] & Hurl)]; [discriminate|].
      rewrite Hurl. reflexivity.
    + intros m [= <-] Hurl Hsecret. rewrite Hurl, Hsecret. simpl.
      eexists. reflexivity.
  - split; [reflexivity | discriminate].
Qed.

(** X18.  A delivery that the endpoint acknowledges is final: one request
    is sent, one record with status [success] and the attempt number is
    appended (without a response code or a next retry time), and nothing
    is enqueued. *)
Theorem acknowledged_delivery_is_final (w : world) (job : webhook_job)
    (now : Z) :
  deliverable w job ->
  Schema.varchar 50 (wj_event job) = true ->
  Schema.integer (default 1%Z (wj_attempt job)) = true ->
  (forall r, delivered (post r) = true) ->
  exists request l,
    let out := process_job w job now in
    snd out = Ok tt
    /\ http_sent (fst out) = http_sent w ++ [request]
    /\ webhook_logs (fst out) = webhook_logs w ++ [l]
    /\ wl_status l = "success"
    /\ wl_attempts l = default 1%Z (wj_attempt job)
    /\ wl_response_code l = None
    /\ wl_next_retry_at l = None
    /\ webhook_queue (fst out) = webhook_queue w.
Proof.
  intros (mid & m & url & secret & Hmid & Hm & Hurl & Hne & Hsecret)
    Hev Hint Hack.
  unfold WebhookWorker.process. rewrite Hmid, Hm, Hurl, Hsecret.
  unfold truthy. apply String.eqb_neq in Hne. rewrite Hne. simpl.
  rewrite Hack. unfold insert_log. rewrite Hev, Hint. simpl.
  eexists _, _. repeat split; reflexivity.
Qed.

(** X19.  Whatever the queue holds and however long the consumer runs,
    every request sent goes to the webhook URL of a merchant of the world
    and carries the HMAC of its own body under that merchant's secret, and
    every record written is the record of one of the requests sent, with
    the body of that request, and has status [success] exactly when the
    endpoint acknowledged that request. *)
Theorem every_request_is_signed (fuel : nat) (w : world) (now : Z) :
  exists rs ls,
    http_sent (run_queue fuel w now) = http_sent w ++ rs
    /\ webhook_logs (run_queue fuel w now) = webhook_logs w ++ ls
    /\ Forall (fun r =>
                 exists mid m secret,
                   merchants w !! mid = Some m
                   /\ m_webhook_url m = Some (hr_url r)
                   /\ m_webhook_secret m = Some secret
                   /\ hr_signature r
                      = hmac_sha256_hex secret (hr_payload r)) rs
    /\ Forall (fun l =>
                 exists r,
                   In r rs
                   /\ hr_payload r = wl_payload l
                   /\ (wl_status l = "success"
                       <-> delivered (post r) = true)) ls.
Proof.
  destruct (run_queue_effect fuel w now) as (_ & rs & ls & H1 & H2 & H3 & H4).
  exists rs, ls. split; [exact H1|]. split; [exact H2|].
  split; [exact H3|].
  eapply Forall_impl; [exact H4|].
  intros l (r & Hin & Hpl & Hst). exists r.
  split; [exact Hin|]. split; [exact Hpl|].
  destruct (delivered (post r)).
  - split; [reflexivity | intros _; exact Hst].
  - split; [|discriminate].
    intros Hs. destruct Hst as [Hst|Hst]; rewrite Hs in Hst; discriminate.
Qed.

(** The consumer empties a queue of one job within a bound set by the
    job's attempt number, sending at most one request per job taken. *)
Lemma run_queue_bounded k :
  forall w job delay now fuel,
    webhook_queue w = [(job, delay)] ->
    (5 - Z.of_nat k <= default 1 (wj_attempt job))%Z ->
    (k < fuel)%nat ->
    webhook_queue (run_queue fuel w now) = []
    /\ (length (http_sent (run_queue fuel w now))
        <= length (http_sent w) + S k)%nat
    /\ (length (webhook_logs (run_queue fuel w now))
        <= length (webhook_logs w) + S k)%nat.
Proof.
  induction k as [|k IH]; intros w job delay now fuel Hq Hatt Hfuel;
    (destruct fuel as [|fuel]; [lia|]); simpl; rewrite Hq;
    set (w0 := set_webhook_queue (fun _ => []) w);
    destruct (process_job_effect w0 job (now + delay)%Z) as [_ Heff];
    set (w1 := fst (process_job w0 job (now + delay)%Z)) in *.
  - assert (Hdone : webhook_queue w1 = []
                    /\ (length (http_sent w1) <= length (http_sent w) + 1)%nat
                    /\ (length (webhook_logs w1)
                        <= length (webhook_logs w) + 1)%nat).
    { destruct Heff as [(Hs & Hl & Hqu)
                       |(r & ls & Hs & Hl & Hlen & _ & Hcase)].
      - rewrite Hs, Hl, Hqu. simpl. repeat split; lia.
      - rewrite Hs, Hl, !length_app. simpl.
        split; [|split; lia].
        destruct Hcase as [(_ & Hqu & _)|(_ & _ & [Hqu|(d & Hlt & _)])];
          [exact Hqu | exact Hqu | simpl in Hatt; lia]. }
    destruct Hdone as (Hq1 & Hs1 & Hl1).
    rewrite run_empty by exact Hq1. auto.
  - assert (Hstep :
      (webhook_queue w1 = []
       \/ exists d, webhook_queue w1
                    = [(next_job job (default 1 (wj_attempt job)), d)])
      /\ (length (http_sent w1) <= length (http_sent w) + 1)%nat
      /\ (length (webhook_logs w1) <= length (webhook_logs w) + 1)%nat).
    { destruct Heff as [(Hs & Hl & Hqu)
                       |(r & ls & Hs & Hl & Hlen & _ & Hcase)].
      - rewrite Hs, Hl, Hqu. simpl. split; [left; reflexivity|]. split; lia.
      - rewrite Hs, Hl, !length_app. simpl.
        split; [|split; lia].
        destruct Hcase as [(_ & Hqu & _)|(_ & _ & [Hqu|(d & _ & Hqu)])];
          [left; exact Hqu | left; exact Hqu | right; exists d; exact Hqu]. }
    destruct Hstep as ([Hq1|[d Hq1]] & Hs1 & Hl1).
    + rewrite run_empty by exact Hq1. repeat split; [exact Hq1|lia|lia].
    + destruct (IH w1 _ d (now + delay)%Z fuel Hq1) as (H1 & H2 & H3);
        [simpl; lia | lia |].
      repeat split; [exact H1|lia|lia].
Qed.

(** X20.  Retries are bounded whatever the endpoint answers.  From a queue
    holding one job at its first attempt (or at any attempt from 1 on),
    the consumer sends at most 5 requests, writes at most 5 records and
    leaves the queue empty once it has taken 5 jobs, however the endpoint
    answers each request and whatever the environment and the world are. *)
Theorem retries_bounded_for_any_endpoint (w : world) (job : webhook_job)
    (delay now : Z) (fuel : nat) :
  webhook_queue w = [(job, delay)] ->
  (1 <= default 1 (wj_attempt job))%Z ->
  (5 <= fuel)%nat ->
  let w' := run_queue fuel w now in
  webhook_queue w' = []
  /\ (length (http_sent w') <= length (http_sent w) + 5)%nat
  /\ (length (webhook_logs w') <= length (webhook_logs w) + 5)%nat.
Proof.
  intros Hq Hatt Hfuel. simpl.
  apply (run_queue_bounded 4 w job delay now fuel Hq); simpl; lia.
Qed.

(** X21.  The record a manual retry re-arms is never resolved by the
    delivery it schedules: the worker only appends, so however the
    delivery goes and however long the consumer runs, the record stays as
    the retry left it, pending with 0 attempts. *)
Theorem rearmed_record_stays_pending
    (JSON_parse : payload -> option payload) (w : world)
    (merchantId : string) (i : nat) (row : webhook_log) (fuel : nat)
    (now now' : Z) :
  webhook_logs w !! i = Some row ->
  Server.owned_by merchantId row = true ->
  let retried := fst (Server.post_webhook_retry JSON_parse w merchantId
                        (wl_id row) now) in
  webhook_logs retried !! i = Some (Server.rearm now row)
  /\ webhook_logs (run_queue fuel retried now') !! i
     = Some (Server.rearm now row)
  /\ wl_status (Server.rearm now row) = "pending"
  /\ wl_attempts (Server.rearm now row) = 0%Z.
Proof.
  intros Hrow Hown retried.
  assert (Hfound : is_Some (List.find
            (fun l => Server.is_log (wl_id row) l
                      && Server.owned_by merchantId l) (webhook_logs w))).
  { destruct (List.find _ (webhook_logs w)) as [x|] eqn:Hf; [eauto|].
    assert (Hin : In row (webhook_logs w))
      by (apply list_elem_of_In, list_elem_of_lookup; eauto).
    pose proof (List.find_none _ _ Hf row Hin) as Hfalse. simpl in Hfalse.
    unfold Server.is_log in Hfalse.
    rewrite Nat.eqb_refl, Hown in Hfalse. discriminate Hfalse. }
  assert (Hlogs : webhook_logs retried
                  = map (fun l => if Server.is_log (wl_id row) l
                                  then Server.rearm now l else l)
                      (webhook_logs w)).
  { unfold retried, Server.post_webhook_retry.
    destruct Hfound as [x Hx]. rewrite Hx.
    destruct (JSON_parse (wl_payload x)); reflexivity. }
  assert (Hi : webhook_logs retried !! i = Some (Server.rearm now row)).
  { rewrite Hlogs, list_lookup_fmap, Hrow. simpl.
    unfold Server.is_log. rewrite Nat.eqb_refl. reflexivity. }
  split; [exact Hi|]. split; [|split; reflexivity].
  destruct (run_queue_effect fuel retried now') as (_ & rs & ls & _ & Hl & _).
  rewrite Hl. apply lookup_app_l_Some. exact Hi.
Qed.

End Deliveries.

Lemma undeliverable_job_leaves_no_trace_witness :
  WebhookWorker.process constant_signature always_500 ∅ world_1
    (WebhookJob "payment.success" (Some "pay_1") None (Some "m_9") None) 7
  = (world_1, Ok tt).
Proof.
  apply (proj1 (undeliverable_job_leaves_no_trace constant_signature
                  always_500 ∅ world_1
                  (WebhookJob "payment.success" (Some "pay_1") None
                     (Some "m_9") None) 7)).
  left. reflexivity.
Defined.

Lemma every_request_is_signed_witness :
  exists rs ls,
    http_sent (WebhookWorker.run constant_signature
                 (fun _ => HttpStatus 204) ∅ 3 world_job_1 0)
    = http_sent world_job_1 ++ rs
    /\ webhook_logs (WebhookWorker.run constant_signature
                       (fun _ => HttpStatus 204) ∅ 3 world_job_1 0)
       = webhook_logs world_job_1 ++ ls
    /\ length rs = 1%nat
    /\ Forall (fun l => wl_status l = "success") ls.
Proof.
  destruct (every_request_is_signed constant_signature
              (fun _ => HttpStatus 204) ∅ 3 world_job_1 0)
    as (rs & ls & Hs & Hl & _ & Hall).
  exists rs, ls. split; [exact Hs|]. split; [exact Hl|]. split.
  - assert (Hrs : rs = http_sent (WebhookWorker.run constant_signature
                                      (fun _ => HttpStatus 204) ∅ 3
                                      world_job_1 0))
      by (rewrite Hs; reflexivity).
    rewrite Hrs. reflexivity.
  - eapply Forall_impl; [exact Hall|].
    intros l (r & _ & _ & Hst). apply Hst. reflexivity.
Defined.

Lemma acknowledged_delivery_is_final_witness :
  exists request l,
    let out := WebhookWorker.process constant_signature
                 (fun _ => HttpStatus 204) ∅ world_job_1 job_1 7000 in
    snd out = Ok tt
    /\ http_sent (fst out) = http_sent world_job_1 ++ [request]
    /\ webhook_logs (fst out) = webhook_logs world_job_1 ++ [l]
    /\ wl_status l = "success"
    /\ wl_attempts l = 1%Z
    /\ wl_response_code l = None
    /\ wl_next_retry_at l = None
    /\ webhook_queue (fst out) = webhook_queue world_job_1.
Proof.
  apply (acknowledged_delivery_is_final constant_signature
           (fun _ => HttpStatus 204) ∅ world_job_1 job_1 7000).
  - exists "m_1", shop, "https://shop.example/hook", "whsec_1".
    repeat split; try reflexivity. discriminate.
  - reflexivity.
  - reflexivity.
  - intros r. reflexivity.
Defined.

Lemma retries_bounded_for_any_endpoint_witness :
  webhook_queue
    (WebhookWorker.run constant_signature always_500 ∅ 5 world_job_1 0)
  = [].
Proof.
  apply (retries_bounded_for_any_endpoint constant_signature always_500 ∅
           world_job_1 job_1 0 0 5).
  - reflexivity.
  - simpl. lia.
  - lia.
Defined.

Lemma rearmed_record_stays_pending_witness :
  webhook_logs
    (WebhookWorker.run constant_signature always_500 ∅ 9
       (fst (Server.post_webhook_retry (fun p => Some p)
               world_failed_delivery "m_1" 0 9000)) 9000) !! 0%nat
  = Some (Server.rearm 9000
            (WebhookLog 0 (Some "m_1") "payment.success"
               (Payload "payment.success" 7 (Some ("pay_1", pay_1)))
               "failed" 5 (Some 7000%Z) None (Some 500%Z) None)).
Proof.
  exact (proj1 (proj2
           (rearmed_record_stays_pending constant_signature always_500 ∅
              (fun p => Some p) world_failed_delivery "m_1" 0
              (WebhookLog 0 (Some "m_1") "payment.success"
                 (Payload "payment.success" 7 (Some ("pay_1", pay_1)))
                 "failed" 5 (Some 7000%Z) None (Some 500%Z) None)
              9 9000 9000 eq_refl eq_refl))).
Defined.

Section RetryDelays.
Import WebhookWorker.

(** X22.  A retry is never immediate: for every attempt number, also 0,
    negative ones and ones beyond the table, the delay is at least 5 and at
    most 7200 seconds (at least 60 under the production schedule), the
    entry 0 of the table being replaced by the last entry; an attempt
    number of at most 0 gets the last entry, and under the test schedule
    attempt n from 1 to 4 is delayed 5 n seconds. *)
Theorem retry_delay_is_never_zero (env : gmap string string) (attempt : Z) :
  (5 <= delaySeconds env attempt <= 7200)%Z
  /\ (env_is env "WEBHOOK_RETRY_INTERVALS_TEST" "true" = false ->
      (60 <= delaySeconds env attempt)%Z)
  /\ ((attempt <= 0)%Z ->
      delaySeconds env attempt = default 0%Z (last (delays env)))
  /\ (env_is env "WEBHOOK_RETRY_INTERVALS_TEST" "true" = true ->
      (1 <= attempt <= 4)%Z ->
      delaySeconds env attempt = (5 * attempt)%Z).
Proof.
  unfold delaySeconds, delays, js_index.
  destruct (env_is env "WEBHOOK_RETRY_INTERVALS_TEST" "true");
    (destruct (0 <=? attempt)%Z eqn:Hsign;
     [apply Z.leb_le in Hsign | apply Z.leb_gt in Hsign; simpl];
     [destruct (Z.to_nat attempt) as [|[|[|[|[|n]]]]] eqn:Hn; simpl|]);
    repeat split; intros; try discriminate; try reflexivity; try lia.
Qed.

Lemma retry_delay_is_never_zero_witness :
  delaySeconds ∅ 0 = 7200%Z.
Proof.
  rewrite (proj1 (proj2 (proj2 (retry_delay_is_never_zero ∅ 0))))
    by lia.
  reflexivity.
Defined.

(** X23.  Against the test merchant's receiver, whose answer is always 500,
    no delivery is ever recorded as a success, although every request it
    receives from merchants holding its secret passes its signature
    check. *)
Theorem test_receiver_validates_and_refuses
    (hmac_sha256_hex : string -> payload -> string)
    (env receiver_env : gmap string string) (fuel : nat) (w : world)
    (now : Z) :
  (forall mid m,
     merchants w !! mid = Some m ->
     is_Some (m_webhook_url m) ->
     m_webhook_secret m = Some (TestMerchant.SECRET receiver_env)) ->
  let w' := run hmac_sha256_hex TestMerchant.webhook env fuel w now in
  exists rs ls,
    http_sent w' = http_sent w ++ rs
    /\ webhook_logs w' = webhook_logs w ++ ls
    /\ Forall (fun r => TestMerchant.signature_valid hmac_sha256_hex
                          receiver_env r = true) rs
    /\ Forall (fun l => wl_status l = "pending" \/ wl_status l = "failed")
         ls.
Proof.
  intros Hsecret. simpl.
  destruct (run_queue_effect hmac_sha256_hex TestMerchant.webhook env fuel w
              now) as (_ & rs & ls & H1 & H2 & H3 & H4).
  exists rs, ls. split; [exact H1|]. split; [exact H2|]. split.
  - eapply Forall_impl; [exact H3|].
    intros r (mid & m & secret & Hm & Hurl & Hsec & Hsig).
    unfold TestMerchant.signature_valid.
    rewrite (Hsecret mid m Hm) in Hsec by (rewrite Hurl; eauto).
    injection Hsec as <-. rewrite Hsig. apply String.eqb_refl.
  - eapply Forall_impl; [exact H4|].
    intros l (r & _ & _ & Hst). exact Hst.
Qed.

End RetryDelays.

Lemma test_receiver_validates_and_refuses_witness :
  exists rs ls,
    http_sent (WebhookWorker.run constant_signature TestMerchant.webhook ∅ 9
                 world_job_1 0)
    = http_sent world_job_1 ++ rs
    /\ webhook_logs (WebhookWorker.run constant_signature
                       TestMerchant.webhook ∅ 9 world_job_1 0)
       = webhook_logs world_job_1 ++ ls
    /\ Forall (fun r => TestMerchant.signature_valid constant_signature
                          receiver_env r = true) rs
    /\ Forall (fun l => wl_status l = "pending" \/ wl_status l = "failed")
         ls.
Proof.
  apply (test_receiver_validates_and_refuses constant_signature ∅
           receiver_env 9 world_job_1 0).
  intros mid m Hm _.
  change (merchants world_job_1)
    with ({[ "m_1" := shop ]} : gmap string merchant) in Hm.
  apply lookup_singleton_Some in Hm as [_ <-]. reflexivity.
Defined.

(** * Further properties of the API server *)

Section Authentication.
Import Server.

Lemma find_map_to_list_sound {A} (f : string * A -> bool)
    (m : gmap string A) id x :
  List.find f (map_to_list m) = Some (id, x) ->
  m !! id = Some x /\ f (id, x) = true.
Proof.
  intros H. apply List.find_some in H as [Hin Hf].
  split; [|exact Hf].
  apply elem_of_map_to_list, list_elem_of_In. exact Hin.
Qed.

Lemma substring_all s : String.substring 0 (String.length s) s = s.
Proof.
  induction s as [|c s IH]; simpl; [reflexivity|]. rewrite IH. reflexivity.
Qed.

Lemma remove_first_bearer k :
  remove_first "Bearer " (String.append "Bearer " k) = k.
Proof.
  simpl. destruct k; simpl; [reflexivity|].
  rewrite substring_all. reflexivity.
Qed.

(** X24.  [authMiddleware] lets a request pass only as a merchant that
    holds the key presented: the merchant id it sets names a row of
    [merchants] whose API key is the non-empty key of the request; and
    when API keys are unique, presenting the key of a merchant always
    passes as that merchant. *)
Theorem authMiddleware_identifies_key_holder (w : world)
    (x_api_key authorization : option string) :
  (forall id,
     authMiddleware w x_api_key authorization = Authenticated id ->
     exists k m,
       presented_key x_api_key authorization = Some k
       /\ k <> ""
       /\ merchants w !! id = Some m
       /\ m_api_key m = k)
  /\ (forall id m,
        merchants w !! id = Some m ->
        m_api_key m <> "" ->
        (forall id' m', merchants w !! id' = Some m' ->
                        m_api_key m' = m_api_key m -> id' = id) ->
        presented_key x_api_key authorization = Some (m_api_key m) ->
        authMiddleware w x_api_key authorization = Authenticated id).
Proof.
  unfold authMiddleware. split.
  - intros id.
    destruct (presented_key x_api_key authorization) as [k|]; simpl;
      [|discriminate].
    destruct (k =? "") eqn:Hk; simpl; [discriminate|].
    apply String.eqb_neq in Hk.
    destruct (List.find _ _) as [[id' m]|] eqn:Hfind; [|discriminate].
    intros [= ->].
    apply find_map_to_list_sound in Hfind as [Hm Hkey].
    exists k, m. repeat split; try assumption.
    apply String.eqb_eq. exact Hkey.
  - intros id m Hm Hne Hunique ->. simpl.
    apply String.eqb_neq in Hne. rewrite Hne. simpl.
    destruct (List.find _ _) as [[id' m']|] eqn:Hfind.
    + apply find_map_to_list_sound in Hfind as [Hm' Hkey].
      apply String.eqb_eq in Hkey. simpl in Hkey.
      rewrite (Hunique id' m' Hm' Hkey). reflexivity.
    + exfalso.
      assert (Hin : In (id, m) (map_to_list (merchants w)))
        by (apply list_elem_of_In, elem_of_map_to_list; exact Hm).
      pose proof (List.find_none _ _ Hfind (id, m) Hin) as Hfalse.
      unfold has_api_key in Hfalse. simpl in Hfalse.
      rewrite String.eqb_refl in Hfalse. discriminate Hfalse.
Qed.

Lemma authMiddleware_identifies_key_holder_witness :
  authMiddleware world_1 (Some "key_1") None = Authenticated "m_1".
Proof.
  apply (proj2 (authMiddleware_identifies_key_holder world_1 (Some "key_1")
                  None) "m_1" shop).
  - reflexivity.
  - discriminate.
  - intros id' m' Hm' _.
    change (merchants world_1)
      with ({[ "m_1" := shop ]} : gmap string merchant) in Hm'.
    apply lookup_singleton_Some in Hm' as [<- _]. reflexivity.
  - reflexivity.
Defined.

(** X25.  How the key is read off the headers: a non-empty [x-api-key]
    wins and the [Authorization] header is then ignored; an empty
    [x-api-key] counts as absent; [Authorization: Bearer k] presents [k];
    and a request with neither header, or whose key comes out empty, is
    answered 401 without a look at the merchants. *)
Theorem authMiddleware_reads_headers (w : world) (k : string)
    (authorization : option string) :
  (k <> "" ->
   authMiddleware w (Some k) authorization = authMiddleware w (Some k) None)
  /\ authMiddleware w (Some "") authorization
     = authMiddleware w None authorization
  /\ authMiddleware w None (Some (String.append "Bearer " k))
     = authMiddleware w (Some k) None
  /\ authMiddleware w None None
     = Unauthorized
         "API key required in x-api-key header or Authorization bearer token"
  /\ authMiddleware w None (Some "Bearer ")
     = Unauthorized
         "API key required in x-api-key header or Authorization bearer token".
Proof.
  unfold authMiddleware, presented_key.
  split; [|split; [|split; [|split]]]; try reflexivity.
  - intros Hk. unfold truthy. apply String.eqb_neq in Hk. rewrite Hk.
    reflexivity.
  - change (truthy None) with false. cbv iota.
    change (remove_first "Bearer " <$> Some (String.append "Bearer " k))
      with (Some (remove_first "Bearer " (String.append "Bearer " k))).
    rewrite remove_first_bearer.
    unfold truthy. cbn. destruct (k =? "") eqn:Hk; cbn; rewrite ?Hk;
      reflexivity.
Qed.

Lemma authMiddleware_reads_headers_witness :
  authMiddleware world_1 (Some "key_1") (Some "Bearer other")
  = authMiddleware world_1 (Some "key_1") None.
Proof.
  apply (proj1 (authMiddleware_reads_headers world_1 "key_1"
                  (Some "Bearer other"))).
  discriminate.
Defined.

End Authentication.

Section WebhookListing.
Import Server.

(** X26.  The webhook listing is scoped to the merchant asking: the total
    is the number of that merchant's records, every entry is the summary
    of one of that merchant's records, there are at most [limit] entries,
    and the answer is the same in every world in which that merchant's
    records are the same, whatever the other merchants' records are. *)
Theorem webhook_listing_is_tenant_scoped (w : world) (merchantId : string)
    (limit offset : query_number) (data : list webhook_summary)
    (total : nat) (l o : Z) :
  get_webhooks w merchantId limit offset = Listing data total l o ->
  total = length (List.filter (owned_by merchantId) (webhook_logs w))
  /\ (length data <= Z.to_nat l)%nat
  /\ Forall (fun s => exists log,
                        In log (webhook_logs w)
                        /\ owned_by merchantId log = true
                        /\ s = summary log) data
  /\ (forall w2,
        List.filter (owned_by merchantId) (webhook_logs w2)
        = List.filter (owned_by merchantId) (webhook_logs w) ->
        get_webhooks w2 merchantId limit offset = Listing data total l o).
Proof.
  unfold get_webhooks.
  destruct (query_or 10 limit) as [l0|]; [|discriminate].
  destruct (query_or 0 offset) as [o0|]; [|discriminate].
  destruct (row_count l0 && row_count o0); [|discriminate]. simpl.
  intros [= <- <- <- <-].
  split; [reflexivity|]. split; [|split].
  - rewrite length_map, length_take. lia.
  - apply Forall_forall. intros s Hs.
    apply list_elem_of_In, List.in_map_iff in Hs as (log & <- & Hlog).
    apply list_elem_of_In in Hlog.
    apply subseteq_take, subseteq_drop in Hlog.
    apply list_elem_of_In in Hlog. apply List.in_rev in Hlog.
    apply List.filter_In in Hlog as [Hin Hown].
    exists log. auto.
  - intros w2 ->. reflexivity.
Qed.

Lemma webhook_listing_is_tenant_scoped_witness :
  get_webhooks world_two_logs "m_1" Absent Absent
  = get_webhooks world_failed_delivery "m_1" Absent Absent.
Proof.
  destruct (get_webhooks world_failed_delivery "m_1" Absent Absent)
    as [data total l o|] eqn:Hget; [|discriminate Hget].
  apply (webhook_listing_is_tenant_scoped world_failed_delivery "m_1" Absent
           Absent data total l o Hget).
  reflexivity.
Defined.

End WebhookListing.

Section PaymentRequests.
Import Server.

(** X27.  An idempotency key longer than the 255 characters of its column
    defeats idempotency: a request carrying it whose payment row the
    database accepts stores a pending payment, then fails on storing the
    key and is answered 500, with no job enqueued and no response
    recorded; the same request sent again (with the next generated id)
    stores a second payment. *)
Theorem long_idempotency_key_leaves_orphan (w : world)
    (merchantId : string) (order_id : option string) (amount : option Z)
    (method : option string) (k paymentId paymentId' : string)
    (now now' : Z) (row row' : payment) :
  k <> "" ->
  Schema.varchar 255 k = false ->
  idempotency_keys w !! (k, merchantId) = None ->
  payment_row w merchantId order_id amount method paymentId now = Some row ->
  let first := post_payments w merchantId order_id amount method (Some k)
                 paymentId now in
  payment_row (fst first) merchantId order_id amount method paymentId' now'
  = Some row' ->
  let second := post_payments (fst first) merchantId order_id amount method
                  (Some k) paymentId' now' in
  status_code (snd first) = 500%Z
  /\ payments (fst first) = <[paymentId := row]> (payments w)
  /\ payment_queue (fst first) = payment_queue w
  /\ idempotency_keys (fst first) = idempotency_keys w
  /\ status_code (snd second) = 500%Z
  /\ payments (fst second)
     = <[paymentId' := row']> (<[paymentId := row]> (payments w))
  /\ payment_queue (fst second) = payment_queue w.
Proof.
  intros Hk Hlong Hmiss Hrow first.
  assert (Htruthy : truthy (Some k) = true).
  { unfold truthy. apply String.eqb_neq in Hk. rewrite Hk. reflexivity. }
  assert (Hfirst : first
    = (set_payments (insert paymentId row) w,
       Response 500
         (InternalErrorBody "Internal server error"
            (Some "value too long for type character varying(255)")))).
  { unfold first, post_payments, cached.
    rewrite Htruthy, Hmiss, Hrow, Hlong. reflexivity. }
  rewrite Hfirst. simpl. intros Hrow'.
  unfold post_payments, cached. rewrite Htruthy. simpl.
  rewrite Hmiss, Hrow', Hlong. simpl. repeat split.
Qed.

Lemma long_idempotency_key_leaves_orphan_witness :
  let first := post_payments world_1 "m_1" (Some "order_9") (Some 500%Z)
                 (Some "upi") (Some long_key) "pay_9" 3 in
  status_code (snd first) = 500%Z
  /\ payments (fst first)
     = <["pay_9" := Payment (Some "m_1") "order_9" 500 "pending"
                      (Some "upi") 3]> (payments world_1)
  /\ payment_queue (fst first) = payment_queue world_1.
Proof.
  intros first.
  destruct (long_idempotency_key_leaves_orphan world_1 "m_1"
              (Some "order_9") (Some 500%Z) (Some "upi") long_key "pay_9"
              "pay_10" 3 4
              (Payment (Some "m_1") "order_9" 500 "pending" (Some "upi") 3)
              (Payment (Some "m_1") "order_9" 500 "pending" (Some "upi") 4))
    as (H1 & H2 & H3 & _);
    [discriminate | reflexivity | reflexivity | reflexivity | reflexivity |].
  split; [exact H1|]. split; [exact H2 | exact H3].
Defined.





End PaymentRequests.
